(** * apply_costume.py: the Blender costume retargeting script

    A shallow embedding of [Editor/BlenderScripts/apply_costume.py] and the
    properties of it that the specification states.

    The script is a straight-line batch job over Blender's scene
    ([bpy.data.objects]): it imports two FBX files, finds the armatures and
    the costume meshes, loads a bone mapping and six settings, renames the
    costume bones and vertex groups through the mapping, re-parents the costume
    meshes to the avatar armature, removes the costume armature and exports
    the avatar armature together with the costume meshes.

    Blender objects are references; the scene is modelled as a store from
    handles to objects, and the script's variables hold handles.  The calls
    into Blender (FBX import and export, reading the two JSON files) are the
    boundary: what they deliver is the input of [run].  Assigning an attribute
    ([bone.name = ...], [obj.parent = ...]) stores the assigned value. *)

From Stdlib Require Import Floats.
From stdpp Require Import gmap strings list fin_maps.

Set Warnings "-inexact-float".
Open Scope string_scope.
Open Scope list_scope.

(** ** Blender's data, as far as the script reads or writes it *)

(** A handle of an object in [bpy.data.objects]. *)
Abbreviation oid := nat.

Definition vec3 : Type := float * float * float.
Definition quat : Type := float * float * float * float.

(** [obj.type]: the script tests for ['ARMATURE'] and ['MESH']; every other
    type (empties, lights, cameras) takes the same branches as [EMPTY]. *)
Inductive object_type := ARMATURE | MESH | EMPTY.

#[global] Instance object_type_eq_dec : EqDecision object_type.
Proof. solve_decision. Defined.

(** [modifier.type]: ['ARMATURE'] or anything else. *)
Inductive modifier_type := MOD_ARMATURE | MOD_OTHER.

#[global] Instance modifier_type_eq_dec : EqDecision modifier_type.
Proof. solve_decision. Defined.

(** A bone of [armature.data.bones]: its name, its parent (the index of the
    parent bone in the same armature, [None] for a root) and its local bind
    transform. *)
Record bone := Bone {
  bone_name : string;
  bone_parent : option nat;
  bind_translation : vec3;
  bind_rotation : quat;
  bind_scale : vec3
}.

(** An entry of [mesh_obj.modifiers]; [mod_object] is [modifier.object],
    which Blender allows to be unset. *)
Record modifier := Modifier {
  mod_type : modifier_type;
  mod_object : option oid
}.

(** An entry of [mesh_obj.vertex_groups]. *)
Record vertex_group := VertexGroup { vg_name : string }.

(** A vertex: its position and its deform weights, each a pair of the index
    of a vertex group of the mesh and a weight. *)
Record vertex := Vertex {
  co : vec3;
  groups : list (nat * float)
}.

Record object := Object {
  ob_name : string;
  ob_type : object_type;
  ob_bones : list bone;                    (* obj.data.bones *)
  ob_vertices : list vertex;               (* obj.data.vertices *)
  ob_modifiers : list modifier;
  ob_vertex_groups : list vertex_group;
  ob_parent : option oid;
  ob_scale : vec3;
  ob_location : vec3;
  ob_hide_viewport : bool;
  ob_hide_render : bool;
  ob_select : bool
}.

(** Attribute assignments. *)
Definition set_bone_name (n : string) (b : bone) : bone :=
  Bone n (bone_parent b) (bind_translation b) (bind_rotation b) (bind_scale b).

Definition set_bones (bs : list bone) (o : object) : object :=
  Object (ob_name o) (ob_type o) bs (ob_vertices o) (ob_modifiers o)
    (ob_vertex_groups o) (ob_parent o) (ob_scale o) (ob_location o)
    (ob_hide_viewport o) (ob_hide_render o) (ob_select o).

Definition set_modifiers (ms : list modifier) (o : object) : object :=
  Object (ob_name o) (ob_type o) (ob_bones o) (ob_vertices o) ms
    (ob_vertex_groups o) (ob_parent o) (ob_scale o) (ob_location o)
    (ob_hide_viewport o) (ob_hide_render o) (ob_select o).

Definition set_vertex_groups (gs : list vertex_group) (o : object) : object :=
  Object (ob_name o) (ob_type o) (ob_bones o) (ob_vertices o) (ob_modifiers o)
    gs (ob_parent o) (ob_scale o) (ob_location o)
    (ob_hide_viewport o) (ob_hide_render o) (ob_select o).

Definition set_parent (p : option oid) (o : object) : object :=
  Object (ob_name o) (ob_type o) (ob_bones o) (ob_vertices o) (ob_modifiers o)
    (ob_vertex_groups o) p (ob_scale o) (ob_location o)
    (ob_hide_viewport o) (ob_hide_render o) (ob_select o).

Definition set_scale (s : vec3) (o : object) : object :=
  Object (ob_name o) (ob_type o) (ob_bones o) (ob_vertices o) (ob_modifiers o)
    (ob_vertex_groups o) (ob_parent o) s (ob_location o)
    (ob_hide_viewport o) (ob_hide_render o) (ob_select o).

Definition set_location (l : vec3) (o : object) : object :=
  Object (ob_name o) (ob_type o) (ob_bones o) (ob_vertices o) (ob_modifiers o)
    (ob_vertex_groups o) (ob_parent o) (ob_scale o) l
    (ob_hide_viewport o) (ob_hide_render o) (ob_select o).

Definition set_visible (o : object) : object :=
  Object (ob_name o) (ob_type o) (ob_bones o) (ob_vertices o) (ob_modifiers o)
    (ob_vertex_groups o) (ob_parent o) (ob_scale o) (ob_location o)
    false false (ob_select o).

Definition select_set (b : bool) (o : object) : object :=
  Object (ob_name o) (ob_type o) (ob_bones o) (ob_vertices o) (ob_modifiers o)
    (ob_vertex_groups o) (ob_parent o) (ob_scale o) (ob_location o)
    (ob_hide_viewport o) (ob_hide_render o) b.

(** ** The two JSON files *)

(** An element of [mapping_data['boneMapping']]: either key may be missing. *)
Record mapping_entry := MappingEntry {
  avatarBoneId : option string;
  costumeBoneId : option string
}.

(** [mapping_data]: the ['boneMapping'] key may be missing. *)
Record mapping_data := MappingData {
  boneMapping : option (list mapping_entry)
}.

(** The settings file: each of the six keys may be missing. *)
Record settings_json := SettingsJson {
  globalScale : option float;
  detectStructuralDifferences : option bool;
  adjustScale : option bool;
  adjustRotation : option bool;
  adjustBindPoses : option bool;
  redistributeWeights : option bool
}.

(** The six values the script extracts (lines 117-123). *)
Record settings := Settings {
  global_scale : float;
  detect_structural_differences : bool;
  adjust_scale : bool;
  adjust_rotation : bool;
  adjust_bind_poses : bool;
  redistribute_weights : bool
}.

(** [settings.get(key, default)] for each key. *)
Definition extract_settings (s : settings_json) : settings :=
  Settings (default 1%float (globalScale s))
           (default true (detectStructuralDifferences s))
           (default true (adjustScale s))
           (default true (adjustRotation s))
           (default true (adjustBindPoses s))
           (default true (redistributeWeights s)).

(** Lines 108-113: entries with both keys are stored under the costume bone
    name; a later entry for the same costume bone overwrites an earlier one. *)
Definition add_mapping (bm : gmap string string) (e : mapping_entry)
  : gmap string string :=
  match avatarBoneId e, costumeBoneId e with
  | Some a, Some c => <[c:=a]> bm
  | _, _ => bm
  end.

Definition build_bone_mapping (md : mapping_data) : gmap string string :=
  match boneMapping md with
  | Some es => foldl add_mapping ∅ es
  | None => ∅
  end.

(** ** What the script prints *)

(** The lines of the script's output that carry data, in the order printed;
    an object is named by its handle. *)
Inductive log_event :=
  | LogAvatarArmature (a : oid)                          (* line 66 *)
  | LogCostumeContent (arm : option oid) (meshes : nat)  (* lines 93-94 *)
  | LogMappingLoaded (n : nat)                           (* line 115 *)
  | LogSettings (s : settings)                           (* lines 125-131 *)
  | LogBoneMapped (old new : string)                     (* line 141 *)
  | LogArmatureScaled (s : float)                        (* line 147 *)
  | LogModifierRetargeted (mesh old new : oid)           (* line 156 *)
  | LogGroupsUpdated (mesh : oid) (n : nat)              (* line 169 *)
  | LogMeshScaled (mesh : oid) (s : float)               (* line 177 *)
  | LogArmatureRemoved (arm : oid).                      (* line 185 *)

(** ** How a run ends *)

(** The [sys.exit(1)] of the script, by the check that triggers it. *)
Inductive exit_cause :=
  | AvatarImportError        (* line 51 *)
  | AvatarNothingImported    (* line 48 *)
  | AvatarNoArmature         (* line 62 *)
  | CostumeImportError       (* line 76 *)
  | CostumeNothingImported   (* line 73 *)
  | CostumeNoContent         (* line 89 *)
  | FileLoadError            (* line 104 *)
  | ExportError.             (* line 215 *)

(** A computation of the script: a value, an exit, or the uncaught
    [AttributeError] of line 156. *)
Inductive res (A : Type) :=
  | Ok (a : A)
  | Exit1 (c : exit_cause)
  | Raised.
Arguments Ok {A} a.
Arguments Exit1 {A} c.
Arguments Raised {A}.

#[global] Instance res_ret : MRet res := λ A a, Ok a.
#[global] Instance res_bind : MBind res := λ A B f x,
  match x with
  | Ok a => f a
  | Exit1 c => Exit1 c
  | Raised => Raised
  end.

(** [try: ... except Exception: sys.exit(1)] around a call that may raise. *)
Definition or_exit {A} (c : exit_cause) (x : option A) : res A :=
  match x with Some a => Ok a | None => Exit1 c end.

(** [if cond: sys.exit(1)]. *)
Definition exit_if (cond : bool) (c : exit_cause) : res unit :=
  if cond then Exit1 c else Ok ().

(** ** The script *)

(** What the calls across the boundary deliver: the objects each FBX import
    creates ([None] when the importer raises), the two parsed JSON files
    ([None] when opening or parsing raises), and whether the exporter
    raises.  References between the objects of a file ([ob_parent],
    [mod_object]) are written with the handles the import assigns. *)
Record world := World {
  avatar_file : option (list object);
  costume_file : option (list object);
  mapping_file : option mapping_data;
  settings_file : option settings_json;
  export_raises : bool
}.

(** [bpy.ops.import_scene.fbx]: the objects of the file enter
    [bpy.data.objects] under fresh handles, counted from [base]. *)
Fixpoint add_objects (base : oid) (file : list object)
    (objs : gmap oid object) : gmap oid object :=
  match file with
  | [] => objs
  | o :: rest => add_objects (S base) rest (<[base:=o]> objs)
  end.

(** [bpy.context.selected_objects] after the import. *)
Definition selected_objects (base : oid) (file : list object) : list oid :=
  seq base (length file).

Definition has_type (objs : gmap oid object) (t : object_type) (i : oid) : bool :=
  match objs !! i with
  | Some o => bool_decide (ob_type o = t)
  | None => false
  end.

(** Lines 56-60: the first armature among the avatar objects. *)
Fixpoint find_avatar_armature (objs : gmap oid object) (l : list oid)
  : option oid :=
  match l with
  | [] => None
  | i :: rest =>
      if has_type objs ARMATURE i then Some i
      else find_avatar_armature objs rest
  end.

(** Lines 81-87: the loop has no [break], so the last armature among the
    costume objects wins; the meshes are collected in order. *)
Definition classify (objs : gmap oid object)
    (acc : option oid * list oid) (i : oid) : option oid * list oid :=
  if has_type objs ARMATURE i then (Some i, acc.2)
  else if has_type objs MESH i then (acc.1, acc.2 ++ [i])
  else acc.

(** The script's variables once everything is loaded (line 131). *)
Record env := Env {
  objects : gmap oid object;          (* bpy.data.objects *)
  avatar_armature : oid;
  costume_armature : option oid;
  costume_meshes : list oid;
  bone_mapping : gmap string string;
  cfg : settings;
  setup_log : list log_event
}.

(** Lines 43-131. *)
Definition setup (w : world) : res env :=
  af ← or_exit AvatarImportError (avatar_file w);
  let objs0 := add_objects 0 af ∅ in
  let avatar_objects := selected_objects 0 af in
  _ ← exit_if (bool_decide (avatar_objects = [])) AvatarNothingImported;
  aa ← or_exit AvatarNoArmature (find_avatar_armature objs0 avatar_objects);
  cf ← or_exit CostumeImportError (costume_file w);
  let objs1 := add_objects (length af) cf objs0 in
  let costume_objects :=
    filter (λ i, i ∉ avatar_objects) (selected_objects (length af) cf) in
  _ ← exit_if (bool_decide (costume_objects = [])) CostumeNothingImported;
  let '(ca, meshes) := foldl (classify objs1) (None, []) costume_objects in
  _ ← exit_if (bool_decide (ca = None) && bool_decide (meshes = []))
        CostumeNoContent;
  md ← or_exit FileLoadError (mapping_file w);
  sj ← or_exit FileLoadError (settings_file w);
  let bm := build_bone_mapping md in
  let s := extract_settings sj in
  Ok (Env objs1 aa ca meshes bm s
        [LogAvatarArmature aa; LogCostumeContent ca (length meshes);
         LogMappingLoaded (size bm); LogSettings s]).

(** Lines 138-142: a bone whose name is a key of the mapping takes the
    mapped name. *)
Definition rename_bone (bm : gmap string string) (b : bone)
  : bone * list log_event :=
  match bm !! bone_name b with
  | Some a => (set_bone_name a b, [LogBoneMapped (bone_name b) a])
  | None => (b, [])
  end.

Definition rename_bones (bm : gmap string string) (bs : list bone)
  : list bone * list log_event :=
  (fst ∘ rename_bone bm <$> bs, bs ≫= snd ∘ rename_bone bm).

(** [adjust_scale and global_scale != 1.0]. *)
Definition scaling (s : settings) : bool :=
  adjust_scale s && negb (PrimFloat.eqb (global_scale s) 1).

Definition uniform (g : float) : vec3 := (g, g, g).

(** Lines 134-147, on the costume armature. *)
Definition process_armature (e : env) (o : object) : object * list log_event :=
  let '(bs, lg) := rename_bones (bone_mapping e) (ob_bones o) in
  let o1 := set_bones bs o in
  if scaling (cfg e)
  then (set_scale (uniform (global_scale (cfg e))) o1,
        lg ++ [LogArmatureScaled (global_scale (cfg e))])
  else (o1, lg).

(** Lines 134-147 on the scene; nothing happens without a costume
    armature. *)
Definition armature_stage (e : env) : gmap oid object * list log_event :=
  match costume_armature e with
  | Some ca =>
      match objects e !! ca with
      | Some o =>
          let '(o', lg) := process_armature e o in (<[ca:=o']> (objects e), lg)
      | None => (objects e, [])
      end
  | None => (objects e, [])
  end.

(** Lines 153-157: an armature modifier is pointed at the avatar armature
    when the costume has an armature; printing [modifier.object.name]
    raises when the modifier has no object. *)
Definition retarget_modifier (e : env) (mesh : oid) (m : modifier)
  : res (modifier * list log_event) :=
  if bool_decide (mod_type m = MOD_ARMATURE)
     && bool_decide (is_Some (costume_armature e))
  then match mod_object m with
       | Some old =>
           Ok (Modifier (mod_type m) (Some (avatar_armature e)),
               [LogModifierRetargeted mesh old (avatar_armature e)])
       | None => Raised
       end
  else Ok (m, []).

Fixpoint retarget_modifiers (e : env) (mesh : oid) (ms : list modifier)
  : res (list modifier * list log_event) :=
  match ms with
  | [] => Ok ([], [])
  | m :: rest =>
      r ← retarget_modifier e mesh m;
      rs ← retarget_modifiers e mesh rest;
      Ok (r.1 :: rs.1, r.2 ++ rs.2)
  end.

(** Lines 162-167. *)
Definition rename_group (bm : gmap string string) (g : vertex_group)
  : vertex_group :=
  match bm !! vg_name g with
  | Some a => VertexGroup a
  | None => g
  end.

(** [updated_groups]. *)
Definition count_updated (bm : gmap string string) (gs : list vertex_group)
  : nat :=
  length (filter (λ g, is_Some (bm !! vg_name g)) gs).

(** Lines 160-169; [avatar_armature] is always set at this point. *)
Definition update_groups (e : env) (mesh : oid) (o : object)
  : object * list log_event :=
  if bool_decide (is_Some (costume_armature e))
  then (set_vertex_groups (rename_group (bone_mapping e) <$> ob_vertex_groups o) o,
        [LogGroupsUpdated mesh (count_updated (bone_mapping e) (ob_vertex_groups o))])
  else (o, []).

(** Lines 175-177. *)
Definition scale_mesh (e : env) (mesh : oid) (o : object)
  : object * list log_event :=
  if scaling (cfg e)
  then (set_scale (uniform (global_scale (cfg e))) o,
        [LogMeshScaled mesh (global_scale (cfg e))])
  else (o, []).

(** Lines 152-177, the body of the loop over the costume meshes. *)
Definition process_mesh (e : env) (mesh : oid) (o : object)
  : res (object * list log_event) :=
  ms ← retarget_modifiers e mesh (ob_modifiers o);
  let o1 := set_modifiers ms.1 o in
  let '(o2, lg2) := update_groups e mesh o1 in
  let o3 := set_parent (Some (avatar_armature e)) o2 in
  let '(o4, lg4) := scale_mesh e mesh o3 in
  Ok (o4, ms.2 ++ lg2 ++ lg4).

(** Lines 151-177.  The handles of [costume_meshes] are handles of the
    scene; the branch for a handle that is not only keeps the function
    total. *)
Fixpoint mesh_stage (e : env) (meshes : list oid) (objs : gmap oid object)
  : res (gmap oid object * list log_event) :=
  match meshes with
  | [] => Ok (objs, [])
  | m :: rest =>
      match objs !! m with
      | Some o =>
          r ← process_mesh e m o;
          rs ← mesh_stage e rest (<[m:=r.1]> objs);
          Ok (rs.1, r.2 ++ rs.2)
      | None => mesh_stage e rest objs
      end
  end.

(** Lines 180-181. *)
Definition origin : vec3 := (0, 0, 0)%float.

Definition location_stage (meshes : list oid) (objs : gmap oid object)
  : gmap oid object :=
  foldl (λ acc m, alter (set_location origin) m acc) objs meshes.

(** Lines 184-186. *)
Definition removal_stage (e : env) (objs : gmap oid object)
  : gmap oid object * list log_event :=
  match costume_armature e with
  | Some ca => (delete ca objs, [LogArmatureRemoved ca])
  | None => (objs, [])
  end.

(** Lines 189-196: everything is made visible, and exactly the objects of
    [export_objects] are selected. *)
Definition export_objects (e : env) : list oid :=
  avatar_armature e :: costume_meshes e.

Definition selection_stage (e : env) (objs : gmap oid object)
  : gmap oid object :=
  map_imap (λ i o, Some (select_set (bool_decide (i ∈ export_objects e)) o))
           (set_visible <$> objs).

(** [use_selection=True, object_types={'ARMATURE', 'MESH'}]. *)
Definition exportable (o : object) : bool :=
  ob_select o
  && (bool_decide (ob_type o = ARMATURE) || bool_decide (ob_type o = MESH)).

Definition export_scene_fbx (objs : gmap oid object) : gmap oid object :=
  filter (λ p, exportable p.2 = true) objs.

(** What a finished run leaves: the scene, the active object, the content
    of the exported file and the printed lines. *)
Record result := Result {
  r_objects : gmap oid object;
  r_active : option oid;
  r_exported : gmap oid object;
  r_log : list log_event
}.

(** Lines 133-219. *)
Definition retarget (e : env) (raises : bool) : res result :=
  let '(objs1, lg1) := armature_stage e in
  ms ← mesh_stage e (costume_meshes e) objs1;
  let objs3 := location_stage (costume_meshes e) ms.1 in
  let '(objs4, lg4) := removal_stage e objs3 in
  let objs5 := selection_stage e objs4 in
  _ ← exit_if raises ExportError;
  Ok (Result objs5 (Some (avatar_armature e)) (export_scene_fbx objs5)
        (setup_log e ++ lg1 ++ ms.2 ++ lg4)).

(** The whole script, from line 43 on. *)
Definition run (w : world) : res result :=
  e ← setup w; retarget e (export_raises w).

(** ** Observations *)

#[global] Instance res_fmap : FMap res := λ A B f x,
  match x with
  | Ok a => Ok (f a)
  | Exit1 c => Exit1 c
  | Raised => Raised
  end.

(** How a computation ended, without its value. *)
Definition status {A} (x : res A) : res unit := (λ _, ()) <$> x.






(** The vertex group names of a mesh after lines 160-169. *)
Definition groups_after (e : env) (gs : list vertex_group) : list vertex_group :=
  if bool_decide (is_Some (costume_armature e))
  then rename_group (bone_mapping e) <$> gs
  else gs.


(** The scale of a costume object after lines 145-146 and 175-176. *)
Definition scale_after (e : env) (s : vec3) : vec3 :=
  if scaling (cfg e) then uniform (global_scale (cfg e)) else s.

(** The bones of the costume armature once lines 134-147 have run; nothing
    later in the script touches them before the armature is removed. *)
Definition costume_bones (objs : gmap oid object) (e : env) : option (list bone) :=
  ca ← costume_armature e; o ← objs !! ca; Some (ob_bones o).

Definition costume_bones_after (e : env) : option (list bone) :=
  costume_bones (armature_stage e).1 e.

(** The names of a list of bones, and of the vertex groups of a mesh. *)
Definition names (bs : list bone) : list string := bone_name <$> bs.

Definition group_names (o : object) : list string :=
  vg_name <$> ob_vertex_groups o.

(** The settings echo is the one printed line that repeats the settings
    file; everything else a run produces is its output. *)
Definition is_echo (ev : log_event) : bool :=
  match ev with LogSettings _ => true | _ => false end.

Definition output (r : result)
  : gmap oid object * option oid * gmap oid object * list log_event :=
  (r_objects r, r_active r, r_exported r,
   filter (λ ev, is_echo ev = false) (r_log r)).

(** The scene as the script leaves it is consistent: what [setup]
    guarantees about its variables. *)
Record env_wf (e : env) : Prop := EnvWf {
  wf_avatar : has_type (objects e) ARMATURE (avatar_armature e) = true;
  wf_meshes : ∀ m, m ∈ costume_meshes e → has_type (objects e) MESH m = true;
  wf_nodup : NoDup (costume_meshes e);
  wf_armature : ∀ ca, costume_armature e = Some ca →
    has_type (objects e) ARMATURE ca = true ∧ ca ≠ avatar_armature e
}.

(** Replacing one file of the input. *)
Definition with_mapping (md : mapping_data) (w : world) : world :=
  World (avatar_file w) (costume_file w) (Some md) (settings_file w)
        (export_raises w).

Definition with_settings (sj : settings_json) (w : world) : world :=
  World (avatar_file w) (costume_file w) (mapping_file w) (Some sj)
        (export_raises w).

(** A costume mesh after the body of the mesh loop, given its modifiers
    after lines 153-157. *)
Definition mesh_after (e : env) (ms : list modifier) (o : object) : object :=
  set_scale (scale_after e (ob_scale o))
    (set_parent (Some (avatar_armature e))
       (set_vertex_groups (groups_after e (ob_vertex_groups o))
          (set_modifiers ms o))).

(** An object of [export_objects] at the end of the run: visible and
    selected. *)
Definition shown (o : object) : object := select_set true (set_visible o).



(** ** Sample scenes *)

Definition identity_rotation : quat := (1, 0, 0, 0)%float.
Definition unit_scale : vec3 := (1, 1, 1)%float.

Definition sample_bone (n : string) (p : option nat) (t : vec3) : bone :=
  Bone n p t identity_rotation unit_scale.

Definition sample_armature (n : string) (bs : list bone) : object :=
  Object n ARMATURE bs [] [] [] None unit_scale origin false false true.

Definition sample_mesh (n : string) (vs : list vertex) (ms : list modifier)
    (gs : list string) (p : option oid) (l : vec3) : object :=
  Object n MESH [] vs ms (VertexGroup <$> gs) p unit_scale l false false true.

Definition entry (costume avatar : string) : mapping_entry :=
  MappingEntry (Some avatar) (Some costume).

Definition default_settings : settings_json :=
  SettingsJson None None None None None None.

(** An avatar with the bones Hip and Chest and a body mesh; the import gives
    the armature handle 0 and the body handle 1. *)
Definition sample_avatar : list object :=
  [sample_armature "Avatar"
     [sample_bone "Hip" None origin;
      sample_bone "Chest" (Some 0) (0, 1, 0)%float];
   sample_mesh "Body" [Vertex origin [(0, 1%float)]]
     [Modifier MOD_ARMATURE (Some 0)] ["Hip"; "Chest"] (Some 0) origin].

(** A jacket rigged on Hip, Chest and Sleeve, with the parent chain
    Sleeve -> Chest -> Hip; the import gives the rig handle 2 and the jacket
    handle 3.  Vertex 0 is weighted half on Hip and half on Sleeve, vertex 1
    on Sleeve only. *)
Definition sample_jacket : list object :=
  [sample_armature "JacketRig"
     [sample_bone "Hip" None origin;
      sample_bone "Chest" (Some 0) (0, 2, 0)%float;
      sample_bone "Sleeve" (Some 1) (1, 0, 0)%float];
   sample_mesh "Jacket"
     [Vertex (0, 1, 0)%float [(0, 0.5%float); (2, 0.5%float)];
      Vertex (1, 2, 0)%float [(2, 1%float)]]
     [Modifier MOD_ARMATURE (Some 2)] ["Hip"; "Chest"; "Sleeve"] (Some 2)
     (3, 4, 5)%float].

(** The scene of section 8 of the specification: Hip and Chest are mapped,
    Sleeve is not, and every setting has its default ([redistributeWeights]
    and [adjustBindPoses] are true). *)
Definition w_sleeve : world :=
  World (Some sample_avatar) (Some sample_jacket)
        (Some (MappingData (Some [entry "Hip" "Hip"; entry "Chest" "Chest"])))
        (Some default_settings) false.



(** A costume file that holds a mesh and no armature. *)
Definition sample_scarf : list object :=
  [sample_mesh "Scarf" [Vertex origin [(0, 1%float)]] [] ["Chest"] None
     (0, 1, 0)%float].

Definition w_no_rig : world :=
  World (Some sample_avatar) (Some sample_scarf)
        (Some (MappingData (Some [entry "Chest" "Chest"])))
        (Some default_settings) false.




(** Two states of the script's variables that differ in the settings (and
    in what was printed while loading) at most. *)
Definition same_but_settings (e e' : env) : Prop :=
  objects e = objects e' ∧ avatar_armature e = avatar_armature e' ∧
  costume_armature e = costume_armature e' ∧
  costume_meshes e = costume_meshes e' ∧ bone_mapping e = bone_mapping e'.

(** The settings file with the two scale settings replaced. *)
Definition with_scale (g : option float) (a : option bool)
    (sj : settings_json) : settings_json :=
  SettingsJson g (detectStructuralDifferences sj) a (adjustRotation sj)
               (adjustBindPoses sj) (redistributeWeights sj).

(** An avatar file that holds a mesh and no armature. *)
Definition w_bare_avatar : world :=
  World (Some [sample_mesh "Body" [] [] [] None origin])
        (Some sample_jacket)
        (Some (MappingData (Some [entry "Hip" "Hip"])))
        (Some default_settings) false.

(** A costume file that holds neither an armature nor a mesh. *)
Definition sample_locator : list object :=
  [Object "Locator" EMPTY [] [] [] [] None unit_scale origin false false true].

Definition w_empty_costume : world :=
  World (Some sample_avatar) (Some sample_locator)
        (Some (MappingData (Some [entry "Hip" "Hip"])))
        (Some default_settings) false.

(** ** The command line (lines 16-28) *)

(** [argv[argv.index('--') + 1:]]: what follows the first ["--"];
    [list.index] raises [ValueError] when there is none. *)
Fixpoint after_dashes (argv : list string) : option (list string) :=
  match argv with
  | [] => None
  | a :: rest => if String.eqb a "--" then Some rest else after_dashes rest
  end.

(** The five file names the script reads from its arguments. *)
Record file_names := FileNames {
  avatar_path : string;
  costume_path : string;
  result_path : string;
  mapping_path : string;
  settings_path : string
}.

(** How lines 16-28 end: the uncaught [ValueError] of line 18, the
    [sys.exit(1)] of line 22, or the five names. *)
Inductive args_outcome :=
  | ArgsValueError
  | ArgsExit1
  | Args (f : file_names).

Definition parse_args (argv : list string) : args_outcome :=
  match after_dashes argv with
  | None => ArgsValueError
  | Some (a :: c :: r :: m :: s :: _) => Args (FileNames a c r m s)
  | Some _ => ArgsExit1
  end.

(** Two armatures in the avatar file and two in the costume file, around
    a shawl. *)
Definition sample_two_avatar_rigs : list object :=
  [sample_armature "AvatarA" [sample_bone "Hip" None origin];
   sample_armature "AvatarB" [sample_bone "Root" None origin]].

Definition sample_two_costume_rigs : list object :=
  [sample_armature "RigA" [sample_bone "Hip" None origin];
   sample_mesh "Shawl" [Vertex origin [(0, 1%float)]]
     [Modifier MOD_ARMATURE (Some 2); Modifier MOD_OTHER None] ["Hip"]
     (Some 2) origin;
   sample_armature "RigB" [sample_bone "Hip" None origin]].

Definition w_two_rigs : world :=
  World (Some sample_two_avatar_rigs) (Some sample_two_costume_rigs)
        (Some (MappingData (Some [entry "Hip" "Pelvis"])))
        (Some default_settings) false.

(** The two conditions every import has to meet. *)
Definition avatar_usable (w : world) : Prop :=
  ∃ af, avatar_file w = Some af ∧ Exists (λ o, ob_type o = ARMATURE) af.

Definition costume_usable (w : world) : Prop :=
  ∃ cf, costume_file w = Some cf ∧
    (Exists (λ o, ob_type o = ARMATURE) cf ∨ Exists (λ o, ob_type o = MESH) cf).

(** What each way of ending the loading stage says about the input. *)
Definition loading_verdict (w : world) (x : res env) : Prop :=
  match x with
  | Ok e =>
      avatar_usable w ∧ costume_usable w ∧
      is_Some (mapping_file w) ∧ is_Some (settings_file w)
  | Exit1 AvatarImportError => avatar_file w = None
  | Exit1 AvatarNothingImported => avatar_file w = Some []
  | Exit1 AvatarNoArmature =>
      ∃ af, avatar_file w = Some af ∧ af ≠ [] ∧
            Forall (λ o, ob_type o ≠ ARMATURE) af
  | Exit1 CostumeImportError => avatar_usable w ∧ costume_file w = None
  | Exit1 CostumeNothingImported => avatar_usable w ∧ costume_file w = Some []
  | Exit1 CostumeNoContent =>
      avatar_usable w ∧
      ∃ cf, costume_file w = Some cf ∧ cf ≠ [] ∧
            Forall (λ o, ob_type o ≠ ARMATURE) cf ∧
            Forall (λ o, ob_type o ≠ MESH) cf
  | Exit1 FileLoadError =>
      avatar_usable w ∧ costume_usable w ∧
      (mapping_file w = None ∨ settings_file w = None)
  | Exit1 ExportError => False
  | Raised => False
  end.

(** An armature modifier without an object, the one thing line 156 cannot
    print. *)
Definition unset_target (x : modifier) : Prop :=
  mod_type x = MOD_ARMATURE ∧ mod_object x = None.

#[global] Instance unset_target_dec x : Decision (unset_target x).
Proof. unfold unset_target. apply _. Defined.

(** The costume has an armature and one of its meshes has an armature
    modifier without an object. *)
Definition unprintable (e : env) : Prop :=
  is_Some (costume_armature e) ∧
  ∃ m o, m ∈ costume_meshes e ∧ objects e !! m = Some o ∧
         Exists unset_target (ob_modifiers o).

(** The input with the exporter raising or not. *)
Definition with_export (raises : bool) (w : world) : world :=
  World (avatar_file w) (costume_file w) (mapping_file w) (settings_file w)
        raises.

(** A jacket whose armature modifier lost its object. *)
Definition w_unset : world :=
  World (Some sample_avatar)
        (Some [sample_armature "JacketRig" [sample_bone "Hip" None origin];
               sample_mesh "Jacket" [] [Modifier MOD_ARMATURE None] ["Hip"]
                 None origin])
        (Some (MappingData (Some [entry "Hip" "Hip"])))
        (Some default_settings) false.

(** What line 157 leaves in a modifier. *)
Definition retargeted (e : env) (x : modifier) : modifier :=
  if bool_decide (mod_type x = MOD_ARMATURE)
     && bool_decide (is_Some (costume_armature e))
  then Modifier (mod_type x) (Some (avatar_armature e))
  else x.

(** The scene, the active object and the exported file of a finished run,
    without the printed lines. *)
Definition scene (r : result) : gmap oid object * option oid * gmap oid object :=
  (r_objects r, r_active r, r_exported r).



(** An entry of the mapping file with both keys. *)
Definition complete (x : mapping_entry) : Prop :=
  is_Some (avatarBoneId x) ∧ is_Some (costumeBoneId x).

#[global] Instance complete_dec x : Decision (complete x).
Proof. unfold complete. apply _. Defined.

(* ================================================================== *)
(** * Properties *)

(** ** Import and classification *)

Lemma add_objects_lookup base file objs k :
  add_objects base file objs !! k =
    if decide (base ≤ k < base + length file) then file !! (k - base)
    else objs !! k.
Proof.
  revert base objs. induction file as [|o file IH]; intros base objs; simpl.
  - case_decide; [lia | done].
  - rewrite IH. destruct (decide (k = base)) as [->|Hne].
    + rewrite decide_False by lia. rewrite decide_True by lia.
      by rewrite lookup_insert_eq, Nat.sub_diag.
    + rewrite lookup_insert_ne by done.
      repeat case_decide; try lia; try done.
      replace (k - base) with (S (k - S base)) by lia. done.
Qed.

Lemma has_type_unique objs i t1 t2 :
  has_type objs t1 i = true → has_type objs t2 i = true → t1 = t2.
Proof.
  unfold has_type. destruct (objs !! i); [|done].
  intros ?%bool_decide_eq_true ?%bool_decide_eq_true. congruence.
Qed.

Lemma find_avatar_armature_Some objs l a :
  find_avatar_armature objs l = Some a →
  a ∈ l ∧ has_type objs ARMATURE a = true.
Proof.
  induction l as [|i l IH]; simpl; [done|].
  destruct (has_type objs ARMATURE i) eqn:Hi.
  - intros [= <-]. split; [left | done].
  - intros [? ?]%IH. split; [by right | done].
Qed.

Lemma find_avatar_armature_None objs l :
  (∀ i, i ∈ l → has_type objs ARMATURE i = false) →
  find_avatar_armature objs l = None.
Proof.
  induction l as [|i l IH]; simpl; [done|]. intros H.
  rewrite H by left. apply IH. intros j Hj. apply H. by right.
Qed.

Lemma classify_meshes objs acc l :
  (foldl (classify objs) acc l).2 =
    acc.2 ++ filter (λ i, has_type objs MESH i = true) l.
Proof.
  revert acc. induction l as [|i l IH]; intros acc; simpl.
  - by rewrite app_nil_r.
  - rewrite IH. unfold classify.
    destruct (has_type objs ARMATURE i) eqn:Ha; simpl.
    + rewrite filter_cons_False; [done|].
      intros Hm. by pose proof (has_type_unique _ _ _ _ Ha Hm).
    + destruct (has_type objs MESH i) eqn:Hm; simpl.
      * rewrite filter_cons_True by done. by rewrite <- app_assoc.
      * rewrite filter_cons_False; [done|]. by rewrite Hm.
Qed.

Lemma classify_armature objs acc l c :
  (foldl (classify objs) acc l).1 = Some c →
  acc.1 = Some c ∨ (c ∈ l ∧ has_type objs ARMATURE c = true).
Proof.
  revert acc. induction l as [|i l IH]; intros acc; simpl; [by left|].
  intros [H|[? ?]]%IH.
  - unfold classify in H. destruct (has_type objs ARMATURE i) eqn:Ha.
    + simpl in H. injection H as <-. right. split; [left | done].
    + destruct (has_type objs MESH i); by left.
  - right. split; [by right | done].
Qed.

Lemma classify_no_armature objs acc l :
  (∀ i, i ∈ l → has_type objs ARMATURE i = false) →
  (foldl (classify objs) acc l).1 = acc.1.
Proof.
  revert acc. induction l as [|i l IH]; intros acc H; simpl; [done|].
  rewrite IH by (intros j Hj; apply H; by right).
  unfold classify. rewrite H by left. by destruct (has_type objs MESH i).
Qed.

(** ** The loading stage *)

(** Walks a goal about [run] or [setup] through the checks of the loading
    stage, up to the reading of the two JSON files; every exit closes its
    goal. *)
Ltac walk_setup w :=
  unfold run, setup; simpl;
  destruct (avatar_file w) as [?af|]; [|done]; simpl;
  destruct (bool_decide (selected_objects 0 _ = [])); [done|]; simpl;
  destruct (find_avatar_armature _ _) as [?aa|]; [|done]; simpl;
  destruct (costume_file w) as [?cf|]; [|done]; simpl;
  destruct (bool_decide (filter _ _ = [])); [done|]; simpl;
  destruct (foldl _ _ _) as [?ca ?meshes];
  destruct (bool_decide (_ = None) && bool_decide (_ = [])); [done|]; simpl.

Lemma setup_Ok w e :
  setup w = Ok e →
  ∃ af cf md sj,
    avatar_file w = Some af ∧ costume_file w = Some cf ∧
    mapping_file w = Some md ∧ settings_file w = Some sj ∧
    objects e = add_objects (length af) cf (add_objects 0 af ∅) ∧
    find_avatar_armature (add_objects 0 af ∅) (selected_objects 0 af)
      = Some (avatar_armature e) ∧
    foldl (classify (objects e)) (None, [])
      (filter (λ i, i ∉ selected_objects 0 af)
              (selected_objects (length af) cf))
      = (costume_armature e, costume_meshes e) ∧
    ¬ (costume_armature e = None ∧ costume_meshes e = []) ∧
    bone_mapping e = build_bone_mapping md ∧
    cfg e = extract_settings sj ∧
    setup_log e =
      [LogAvatarArmature (avatar_armature e);
       LogCostumeContent (costume_armature e) (length (costume_meshes e));
       LogMappingLoaded (size (bone_mapping e)); LogSettings (cfg e)].
Proof.
  unfold setup. intros H.
  destruct (avatar_file w) as [af|]; [|done]. simpl in H.
  destruct (bool_decide (selected_objects 0 af = [])); [done|]. simpl in H.
  destruct (find_avatar_armature _ _) as [aa|] eqn:Haa; [|done]. simpl in H.
  destruct (costume_file w) as [cf|]; [|done]. simpl in H.
  destruct (bool_decide (filter _ _ = [])); [done|]. simpl in H.
  destruct (foldl _ _ _) as [ca meshes] eqn:Hcl.
  destruct (bool_decide (ca = None) && bool_decide (meshes = [])) eqn:Hc;
    [done|]. simpl in H.
  destruct (mapping_file w) as [md|]; [|done]. simpl in H.
  destruct (settings_file w) as [sj|]; [|done]. simpl in H.
  injection H as <-. exists af, cf, md, sj. simpl.
  repeat split; try done.
  intros [-> ->]. done.
Qed.

Lemma setup_wf w e : setup w = Ok e → env_wf e.
Proof.
  intros (af & cf & md & sj & _ & _ & _ & _ & Ho & Haa & Hcl & _)%setup_Ok.
  apply find_avatar_armature_Some in Haa as [Hin Haa].
  apply elem_of_seq in Hin.
  assert (Hsel : ∀ i,
    i ∈ filter (λ i, i ∉ selected_objects 0 af)
               (selected_objects (length af) cf) →
    (length af ≤ i)%nat).
  { intros i [_ Hi%elem_of_seq]%list_elem_of_filter. lia. }
  pose proof (f_equal fst Hcl) as Hca. pose proof (f_equal snd Hcl) as Hms.
  simpl in Hca, Hms. rewrite classify_meshes in Hms. simpl in Hms.
  split.
  - unfold has_type in *. rewrite Ho, add_objects_lookup.
    rewrite decide_False by lia. done.
  - intros m Hm. rewrite <- Hms in Hm.
    by apply list_elem_of_filter in Hm as [? _].
  - rewrite <- Hms. apply NoDup_filter, NoDup_filter, NoDup_seq.
  - intros ca Hc. rewrite Hc in Hca.
    apply classify_armature in Hca as [?|[Hi Ht]]; [done|].
    split; [done|]. apply Hsel in Hi. lia.
Qed.

(** ** The renaming loops *)











(** ** The stages on the scene *)

Lemma armature_stage_lookup_ne e k :
  costume_armature e ≠ Some k →
  (armature_stage e).1 !! k = objects e !! k.
Proof.
  unfold armature_stage. intros Hk.
  destruct (costume_armature e) as [ca|]; [|done].
  destruct (objects e !! ca) as [o|]; [|done].
  destruct (process_armature e o) as [o' lg]. simpl.
  apply lookup_insert_ne. congruence.
Qed.



Lemma location_stage_lookup ms objs k :
  location_stage ms objs !! k =
    if bool_decide (k ∈ ms) then set_location origin <$> objs !! k
    else objs !! k.
Proof.
  unfold location_stage. revert objs.
  induction ms as [|m ms IH]; intros objs; simpl; [done|].
  rewrite IH. destruct (decide (k = m)) as [->|Hne].
  - rewrite lookup_alter_eq. rewrite (bool_decide_eq_true_2 (m ∈ m :: ms)) by left.
    case_bool_decide; [|done]. by destruct (objs !! m).
  - rewrite lookup_alter_ne by done.
    case_bool_decide as H1; case_bool_decide as H2; try done.
    + exfalso. apply H2. by right.
    + exfalso. apply H1. by apply elem_of_cons in H2 as [?|?].
Qed.

Lemma selection_stage_lookup e objs k :
  selection_stage e objs !! k =
    (λ o, select_set (bool_decide (k ∈ export_objects e)) (set_visible o))
      <$> objs !! k.
Proof.
  unfold selection_stage. rewrite map_lookup_imap, lookup_fmap.
  by destruct (objs !! k).
Qed.

Lemma export_lookup_Some objs k o :
  objs !! k = Some o → exportable o = true →
  export_scene_fbx objs !! k = Some o.
Proof.
  intros Ho He. unfold export_scene_fbx.
  by apply map_lookup_filter_Some.
Qed.


Lemma process_mesh_Ok e m o o' lg :
  process_mesh e m o = Ok (o', lg) →
  ∃ ms lgm,
    retarget_modifiers e m (ob_modifiers o) = Ok (ms, lgm) ∧
    o' = mesh_after e ms o.
Proof.
  unfold process_mesh. destruct (retarget_modifiers _ _ _) as [[ms lgm]| |];
    simpl; [|done..].
  unfold update_groups, scale_mesh, mesh_after, groups_after, scale_after.
  intros H. exists ms, lgm. split; [done|].
  destruct (bool_decide (is_Some (costume_armature e)));
    destruct (scaling (cfg e)); simpl in H; by injection H as <- _.
Qed.


(** The loop over the meshes rewrites each mesh of the list once and
    leaves every other object alone. *)
Lemma mesh_stage_Ok e ms objs objs' lg :
  mesh_stage e ms objs = Ok (objs', lg) → NoDup ms →
  (∀ k, k ∉ ms → objs' !! k = objs !! k) ∧
  (∀ m o, m ∈ ms → objs !! m = Some o →
     ∃ o1 lg1, process_mesh e m o = Ok (o1, lg1) ∧ objs' !! m = Some o1).
Proof.
  revert objs objs' lg. induction ms as [|m ms IH]; intros objs objs' lg; simpl.
  - intros [= <- _] _. split; [done|]. intros m o Hm. by apply elem_of_nil in Hm.
  - intros H [Hm Hnd]%NoDup_cons.
    destruct (objs !! m) as [o|] eqn:Ho.
    + destruct (process_mesh e m o) as [[o1 lg1]| |] eqn:Hp; simpl in H; [|done..].
      destruct (mesh_stage e ms _) as [[objs2 lg2]| |] eqn:Hs; simpl in H; [|done..].
      injection H as <- _.
      destruct (IH _ _ _ Hs Hnd) as [Hother Hin]. split.
      * intros k Hk. rewrite Hother by (intros ?; apply Hk; by right).
        apply lookup_insert_ne. intros ->. apply Hk. left.
      * intros k ok [->|Hk]%elem_of_cons Hok.
        -- exists o1, lg1. replace ok with o by congruence. split; [done|].
           rewrite Hother by done. apply lookup_insert_eq.
        -- apply Hin; [done|]. rewrite lookup_insert_ne; [done|].
           intros ->. done.
    + destruct (IH _ _ _ H Hnd) as [Hother Hin]. split.
      * intros k Hk. apply Hother. intros ?. apply Hk. by right.
      * intros k ok [->|Hk]%elem_of_cons Hok; [congruence|]. by apply Hin.
Qed.

Lemma has_type_Some objs t i :
  has_type objs t i = true → ∃ o, objs !! i = Some o ∧ ob_type o = t.
Proof.
  unfold has_type. destruct (objs !! i) as [o|]; [|done].
  intros ?%bool_decide_eq_true. by exists o.
Qed.

Lemma retarget_Ok e raises r :
  retarget e raises = Ok r →
  ∃ objs2 lg2,
    raises = false ∧
    mesh_stage e (costume_meshes e) (armature_stage e).1 = Ok (objs2, lg2) ∧
    r_objects r =
      selection_stage e
        (removal_stage e (location_stage (costume_meshes e) objs2)).1 ∧
    r_active r = Some (avatar_armature e) ∧
    r_exported r = export_scene_fbx (r_objects r) ∧
    r_log r =
      setup_log e ++ (armature_stage e).2 ++ lg2 ++
      (removal_stage e (location_stage (costume_meshes e) objs2)).2.
Proof.
  unfold retarget. destruct (armature_stage e) as [objs1 lg1]. simpl.
  destruct (mesh_stage e _ objs1) as [[objs2 lg2]| |]; simpl; [|done..].
  destruct (removal_stage e _) as [objs4 lg4] eqn:Hr. simpl.
  destruct raises; simpl; [done|]. intros [= <-]. simpl.
  exists objs2, lg2. by rewrite Hr.
Qed.

Section final_scene.
Context (e : env) (raises : bool) (r : result).
Hypothesis Hwf : env_wf e.
Hypothesis Hrun : retarget e raises = Ok r.

Lemma mesh_not_armature m :
  m ∈ costume_meshes e →
  costume_armature e ≠ Some m ∧ m ≠ avatar_armature e.
Proof.
  intros Hm%(wf_meshes e Hwf). split.
  - intros [Hc _]%(wf_armature e Hwf).
    by pose proof (has_type_unique _ _ _ _ Hm Hc).
  - intros ->. by pose proof (has_type_unique _ _ _ _ Hm (wf_avatar e Hwf)).
Qed.


(** A costume mesh at the end of the run. *)
Lemma final_mesh m o :
  m ∈ costume_meshes e → objects e !! m = Some o →
  ∃ ms lgm,
    retarget_modifiers e m (ob_modifiers o) = Ok (ms, lgm) ∧
    r_objects r !! m = Some (shown (set_location origin (mesh_after e ms o))) ∧
    r_exported r !! m = Some (shown (set_location origin (mesh_after e ms o))).
Proof.
  intros Hm Ho.
  destruct (retarget_Ok _ _ _ Hrun) as (objs2 & lg2 & _ & Hs & Hobjs & _ & Hex & _).
  destruct (mesh_not_armature m Hm) as [Hca Haa].
  apply mesh_stage_Ok in Hs as [_ Hin]; [|apply Hwf].
  destruct (Hin m o Hm) as (o1 & lg1 & Hp & Ho1).
  { by rewrite armature_stage_lookup_ne. }
  apply process_mesh_Ok in Hp as (ms & lgm & Hms & ->).
  exists ms, lgm. split; [done|].
  assert (Hfin : r_objects r !! m =
                 Some (shown (set_location origin (mesh_after e ms o)))).
  { rewrite Hobjs, selection_stage_lookup.
    unfold removal_stage. unfold shown.
    rewrite (bool_decide_eq_true_2 (m ∈ export_objects e)) by by right.
    destruct (costume_armature e) as [ca|]; simpl.
    - rewrite lookup_delete_ne by congruence.
      rewrite location_stage_lookup, bool_decide_eq_true_2 by done.
      by rewrite Ho1.
    - rewrite location_stage_lookup, bool_decide_eq_true_2 by done.
      by rewrite Ho1. }
  split; [done|]. rewrite Hex. apply export_lookup_Some; [done|].
  apply (wf_meshes e Hwf), has_type_Some in Hm as (o0 & Ho0 & Ht).
  replace o0 with o in Ht by congruence.
  unfold exportable. simpl. rewrite Ht. done.
Qed.



End final_scene.

(** ** The whole run *)

Lemma run_setup w e : setup w = Ok e → run w = retarget e (export_raises w).
Proof. unfold run. by intros ->. Qed.


Lemma run_mesh w e r m o :
  setup w = Ok e → run w = Ok r →
  m ∈ costume_meshes e → objects e !! m = Some o →
  ∃ ms lgm,
    retarget_modifiers e m (ob_modifiers o) = Ok (ms, lgm) ∧
    r_objects r !! m = Some (shown (set_location origin (mesh_after e ms o))) ∧
    r_exported r !! m = Some (shown (set_location origin (mesh_after e ms o))).
Proof.
  intros Hs Hr. rewrite (run_setup _ _ Hs) in Hr.
  eapply final_mesh; [by eapply setup_wf | done].
Qed.


(** ** Skin weights (specification, section 4.4) *)










(** ** Bones (specification, section 4.3, and the renaming loop) *)







(** ** The bone mapping (specification, section 4.2) *)






(** *** What the output says about bones *)







(** *** The mapping never decides how a run ends *)

Lemma retarget_modifiers_env e e' m ms :
  costume_armature e = costume_armature e' →
  avatar_armature e = avatar_armature e' →
  retarget_modifiers e m ms = retarget_modifiers e' m ms.
Proof.
  intros Hc Ha. induction ms as [|x ms IH]; simpl; [done|].
  rewrite IH. unfold retarget_modifier. by rewrite Hc, Ha.
Qed.

Lemma process_mesh_cases e m o :
  match retarget_modifiers e m (ob_modifiers o) with
  | Ok ms => ∃ lg, process_mesh e m o = Ok (mesh_after e ms.1 o, lg)
  | Exit1 c => process_mesh e m o = Exit1 c
  | Raised => process_mesh e m o = Raised
  end.
Proof.
  destruct (retarget_modifiers e m (ob_modifiers o)) as [[ms lgm]| |] eqn:Hm.
  - destruct (process_mesh e m o) as [[o1 lg1]| |] eqn:Hp.
    + apply process_mesh_Ok in Hp as (ms' & lgm' & Hm' & ->).
      exists lg1. simpl. congruence.
    + unfold process_mesh in Hp. rewrite Hm in Hp. simpl in Hp.
      by destruct (update_groups _ _ _), (scale_mesh _ _ _).
    + unfold process_mesh in Hp. rewrite Hm in Hp. simpl in Hp.
      by destruct (update_groups _ _ _), (scale_mesh _ _ _).
  - unfold process_mesh. by rewrite Hm.
  - unfold process_mesh. by rewrite Hm.
Qed.










(** ** Scale (specification, sections 3 and 8) *)

Lemma scaling_unit s : global_scale s = 1%float → scaling s = false.
Proof. unfold scaling. intros ->. by destruct (adjust_scale s). Qed.

Lemma scaling_off s : adjust_scale s = false → scaling s = false.
Proof. unfold scaling. by intros ->. Qed.

Section no_scaling.
Context (e e' : env).
Hypothesis Hsame : same_but_settings e e'.
Hypothesis Hoff : scaling (cfg e) = false.
Hypothesis Hoff' : scaling (cfg e') = false.

Lemma armature_stage_no_scaling : armature_stage e = armature_stage e'.
Proof.
  destruct Hsame as (Ho & _ & Hc & _ & Hb).
  unfold armature_stage, process_armature.
  by rewrite Ho, Hc, Hb, Hoff, Hoff'.
Qed.

Lemma process_mesh_no_scaling m o : process_mesh e m o = process_mesh e' m o.
Proof.
  destruct Hsame as (_ & Ha & Hc & _ & Hb).
  unfold process_mesh, update_groups, scale_mesh.
  rewrite (retarget_modifiers_env e e' m _ Hc Ha).
  by rewrite Ha, Hc, Hb, Hoff, Hoff'.
Qed.

Lemma mesh_stage_no_scaling ms objs : mesh_stage e ms objs = mesh_stage e' ms objs.
Proof.
  revert objs. induction ms as [|m ms IH]; intros objs; simpl; [done|].
  destruct (objs !! m) as [o|]; [|done].
  rewrite process_mesh_no_scaling.
  destruct (process_mesh e' m o) as [[o1 lg1]| |]; simpl; [|done..].
  by rewrite IH.
Qed.

Lemma retarget_no_scaling raises :
  filter (λ ev, is_echo ev = false) (setup_log e)
    = filter (λ ev, is_echo ev = false) (setup_log e') →
  output <$> retarget e raises = output <$> retarget e' raises.
Proof.
  intros Hlog. unfold retarget.
  rewrite armature_stage_no_scaling.
  destruct (armature_stage e') as [objs1 lg1].
  destruct Hsame as (Ho & Ha & Hc & Hm & Hb).
  rewrite Hm, mesh_stage_no_scaling.
  destruct (mesh_stage e' _ objs1) as [[objs2 lg2]| |]; simpl; [|done..].
  unfold removal_stage, selection_stage, export_objects.
  rewrite Ha, Hc, Hm.
  destruct (costume_armature e'); destruct raises; simpl; try done;
    unfold output; simpl; by rewrite !filter_app, Hlog.
Qed.
End no_scaling.

(** C6.  With [globalScale] 1.0 and [adjustScale] true a run produces what
    it produces with [adjustScale] false (whatever [globalScale] is then):
    the same scene, the same exported file and the same printed lines apart
    from the echo of the settings, or the same exit. *)
Theorem unit_scale_is_no_op w sj g :
  output <$> run (with_settings (with_scale (Some 1%float) (Some true) sj) w)
  = output <$> run (with_settings (with_scale g (Some false) sj) w).
Proof.
  walk_setup w.
  destruct (mapping_file w) as [md|]; [|done]. simpl.
  apply retarget_no_scaling;
    [done | by apply scaling_unit | by apply scaling_off | done].
Qed.

(** Scaling is not vacuous: with [globalScale] 2.0 the setting
    [adjustScale] changes the exported jacket. *)
Example scale_two_differs :
  (λ r, ob_scale <$> r_exported r !! 3)
    <$> run (with_settings (with_scale (Some 2%float) (Some true)
                              default_settings) w_sleeve)
    = Ok (Some (2, 2, 2)%float) ∧
  (λ r, ob_scale <$> r_exported r !! 3)
    <$> run (with_settings (with_scale (Some 2%float) (Some false)
                              default_settings) w_sleeve)
    = Ok (Some (1, 1, 1)%float).
Proof. split; by vm_compute. Qed.

(** ** Missing skeletons (specification, section 7) *)

Lemma has_type_import base file objs t k o :
  file !! k = Some o →
  has_type (add_objects base file objs) t (base + k)
    = bool_decide (ob_type o = t).
Proof.
  intros Hk. unfold has_type. rewrite add_objects_lookup.
  pose proof (lookup_lt_Some _ _ _ Hk).
  rewrite decide_True by lia.
  replace (base + k - base) with k by lia. by rewrite Hk.
Qed.

Lemma selected_objects_lookup base file i :
  i ∈ selected_objects base file →
  ∃ k o, i = base + k ∧ file !! k = Some o.
Proof.
  intros Hi%elem_of_seq. exists (i - base).
  destruct (lookup_lt_is_Some_2 file (i - base)) as [o Ho]; [lia|].
  exists o. split; [lia | done].
Qed.

Lemma no_type_in_import base file objs t i :
  Forall (λ o, ob_type o ≠ t) file → i ∈ selected_objects base file →
  has_type (add_objects base file objs) t i = false.
Proof.
  intros Hall (k & o & -> & Hk)%selected_objects_lookup.
  rewrite (has_type_import _ _ _ _ _ _ Hk). apply bool_decide_eq_false_2.
  eapply (proj1 (Forall_forall _ _) Hall). by eapply list_elem_of_lookup_2.
Qed.

Lemma find_avatar_armature_is_Some objs l i :
  i ∈ l → has_type objs ARMATURE i = true →
  is_Some (find_avatar_armature objs l).
Proof.
  induction l as [|j l IH]; simpl; [by intros ?%elem_of_nil|].
  intros [->|Hi]%elem_of_cons Ht.
  - rewrite Ht. by eexists.
  - destruct (has_type objs ARMATURE j); [by eexists | by apply IH].
Qed.

Lemma selected_objects_nil base file :
  selected_objects base file = [] ↔ file = [].
Proof.
  unfold selected_objects. split.
  - intros H. apply (f_equal length) in H. rewrite length_seq in H.
    by apply nil_length_inv.
  - by intros ->.
Qed.

(** An avatar file without an armature ends the run at line 48 or 62. *)
Lemma run_avatar_without_armature w af :
  avatar_file w = Some af → Forall (λ o, ob_type o ≠ ARMATURE) af →
  run w = Exit1 (if bool_decide (af = []) then AvatarNothingImported
                 else AvatarNoArmature).
Proof.
  intros Haf Hall. unfold run, setup. rewrite Haf. simpl.
  rewrite (bool_decide_ext _ _ (selected_objects_nil 0 af)).
  case_bool_decide; [done|]. simpl.
  rewrite find_avatar_armature_None; [done|].
  intros i Hi. by apply no_type_in_import.
Qed.

(** The costume objects are the objects of the costume file. *)
Lemma costume_objects_elem af cf i :
  i ∈ filter (λ i, i ∉ selected_objects 0 af)
             (selected_objects (length af) cf)
  ↔ i ∈ selected_objects (length af) cf.
Proof.
  rewrite list_elem_of_filter. split; [by intros [_ ?]|].
  intros Hi. split; [|done]. unfold selected_objects in *.
  rewrite elem_of_seq in *. lia.
Qed.

Lemma costume_objects_nil af cf :
  filter (λ i, i ∉ selected_objects 0 af) (selected_objects (length af) cf) = []
  ↔ cf = [].
Proof.
  split.
  - intros H. destruct cf as [|o cf]; [done|]. exfalso.
    assert (Hi : length af ∈ selected_objects (length af) (o :: cf)).
    { apply elem_of_seq. simpl. lia. }
    apply costume_objects_elem in Hi. rewrite H in Hi.
    by apply elem_of_nil in Hi.
  - by intros ->.
Qed.

Section avatar_loaded.
Context (w : world) (af cf : list object).
Hypothesis Haf : avatar_file w = Some af.
Hypothesis Harm : Exists (λ o, ob_type o = ARMATURE) af.
Hypothesis Hcf : costume_file w = Some cf.

Lemma avatar_armature_found :
  is_Some (find_avatar_armature (add_objects 0 af ∅) (selected_objects 0 af))
  ∧ bool_decide (selected_objects 0 af = []) = false.
Proof.
  apply Exists_exists in Harm as (o & Ho & Ht).
  apply list_elem_of_lookup_1 in Ho as [k Hk].
  pose proof (lookup_lt_Some _ _ _ Hk) as Hlt. split.
  - apply (find_avatar_armature_is_Some _ _ (0 + k)).
    + apply elem_of_seq. lia.
    + rewrite (has_type_import _ _ _ _ _ _ Hk). by apply bool_decide_eq_true_2.
  - apply bool_decide_eq_false_2. rewrite selected_objects_nil.
    intros ->. simpl in Hlt. lia.
Qed.

(** A costume file with neither an armature nor a mesh ends the run at
    line 73 or 89. *)
Lemma run_costume_without_content :
  Forall (λ o, ob_type o ≠ ARMATURE) cf → Forall (λ o, ob_type o ≠ MESH) cf →
  run w = Exit1 (if bool_decide (cf = []) then CostumeNothingImported
                 else CostumeNoContent).
Proof.
  intros Hna Hnm. unfold run, setup. rewrite Haf. simpl.
  destruct avatar_armature_found as [[aa ->] ->]. simpl. rewrite Hcf. simpl.
  rewrite (bool_decide_ext _ _ (costume_objects_nil af cf)).
  case_bool_decide; [done|]. simpl.
  destruct (foldl _ _ _) as [ca meshes] eqn:Hcl.
  pose proof (f_equal fst Hcl) as H1. pose proof (f_equal snd Hcl) as H2.
  simpl in H1, H2.
  rewrite classify_no_armature in H1; last first.
  { intros i Hi%costume_objects_elem. by apply no_type_in_import. }
  rewrite classify_meshes in H2. simpl in H1, H2.
  assert (Hnil : meshes = []).
  { apply elem_of_nil_inv. intros i. rewrite <- H2.
    intros [Ht Hi%costume_objects_elem]%list_elem_of_filter.
    by rewrite (no_type_in_import _ _ _ _ _ Hnm Hi) in Ht. }
  by rewrite Hnil, <- H1.
Qed.

(** A costume file with a mesh and no armature is processed: the run
    reaches the export, without a costume armature. *)
Lemma run_costume_without_armature md sj :
  Forall (λ o, ob_type o ≠ ARMATURE) cf → Exists (λ o, ob_type o = MESH) cf →
  mapping_file w = Some md → settings_file w = Some sj →
  ∃ e, setup w = Ok e ∧ costume_armature e = None ∧ costume_meshes e ≠ [].
Proof.
  intros Hna Hm Hmd Hsj. unfold setup. rewrite Haf. simpl.
  destruct avatar_armature_found as [[aa ->] ->]. simpl. rewrite Hcf. simpl.
  apply Exists_exists in Hm as (o & Ho & Ht).
  apply list_elem_of_lookup_1 in Ho as [k Hk].
  pose proof (lookup_lt_Some _ _ _ Hk) as Hlt.
  assert (Hcfne : cf ≠ []) by (intros ->; simpl in Hlt; lia).
  rewrite (bool_decide_ext _ _ (costume_objects_nil af cf)).
  rewrite bool_decide_eq_false_2 by done. simpl.
  destruct (foldl _ _ _) as [ca meshes] eqn:Hcl.
  pose proof (f_equal fst Hcl) as H1. pose proof (f_equal snd Hcl) as H2.
  simpl in H1, H2.
  rewrite classify_no_armature in H1; last first.
  { intros i Hi%costume_objects_elem. by apply no_type_in_import. }
  rewrite classify_meshes in H2. simpl in H1, H2. subst ca.
  assert (Hmesh : length af + k ∈ meshes).
  { rewrite <- H2. apply list_elem_of_filter. split.
    - rewrite (has_type_import _ _ _ _ _ _ Hk). by apply bool_decide_eq_true_2.
    - apply costume_objects_elem, elem_of_seq. lia. }
  assert (Hne : meshes ≠ []) by (intros ->; by apply elem_of_nil in Hmesh).
  rewrite (bool_decide_eq_false_2 (meshes = [])) by done.
  rewrite andb_false_r. simpl. rewrite Hmd, Hsj. simpl.
  eexists. split; [done|]. done.
Qed.
End avatar_loaded.

Lemma retarget_modifiers_no_rig e m ms :
  costume_armature e = None → retarget_modifiers e m ms = Ok (ms, []).
Proof.
  intros Hc. induction ms as [|x ms IH]; simpl; [done|].
  rewrite IH. unfold retarget_modifier. rewrite Hc.
  rewrite andb_false_r. done.
Qed.

Lemma mesh_stage_no_rig e ms objs :
  costume_armature e = None → ∃ r, mesh_stage e ms objs = Ok r.
Proof.
  intros Hc. revert objs. induction ms as [|m ms IH]; intros objs; simpl.
  - by eexists.
  - destruct (objs !! m) as [o|]; [|apply IH].
    pose proof (process_mesh_cases e m o) as Hp.
    rewrite (retarget_modifiers_no_rig _ _ _ Hc) in Hp.
    destruct Hp as [lg ->]. simpl.
    destruct (IH (<[m:=mesh_after e (ob_modifiers o) o]> objs)) as [r' ->].
    by eexists.
Qed.

Lemma retarget_no_rig e :
  costume_armature e = None → ∃ r, retarget e false = Ok r.
Proof.
  intros Hc. unfold retarget. destruct (armature_stage e) as [objs1 lg1].
  destruct (mesh_stage_no_rig e (costume_meshes e) objs1 Hc) as [r ->].
  simpl. destruct (removal_stage e _). by eexists.
Qed.

(** C7, counterexample.  The costume file holds the mesh Scarf and no
    armature, so the costume asset has no bone hierarchy.  The run does not
    fail: it finishes and exports the scarf, parented to the avatar
    armature. *)
Lemma scarf_without_rig_is_exported :
  costume_armature <$> setup w_no_rig = Ok None ∧
  status (run w_no_rig) = Ok () ∧
  (λ r, (λ o, (ob_name o, ob_parent o)) <$> r_exported r !! 2) <$> run w_no_rig
    = Ok (Some ("Scarf", Some 0)).
Proof. split; [by vm_compute|]. split; by vm_compute. Qed.

(** C7, as amended.  An avatar file without an armature ends the run with
    exit status 1 before anything is processed, and nothing is exported.  A
    costume file with neither an armature nor a mesh does the same.  A
    costume file that has a mesh but no armature is not an error: when the
    mapping and the settings load and the exporter does not raise, the run
    finishes without a costume armature and exports every costume mesh. *)
Theorem missing_skeleton_exits w :
  (∀ af, avatar_file w = Some af →
     Forall (λ o, ob_type o ≠ ARMATURE) af →
     run w = Exit1 (if bool_decide (af = []) then AvatarNothingImported
                    else AvatarNoArmature)) ∧
  (∀ af cf, avatar_file w = Some af →
     Exists (λ o, ob_type o = ARMATURE) af →
     costume_file w = Some cf →
     Forall (λ o, ob_type o ≠ ARMATURE) cf →
     Forall (λ o, ob_type o ≠ MESH) cf →
     run w = Exit1 (if bool_decide (cf = []) then CostumeNothingImported
                    else CostumeNoContent)) ∧
  (∀ af cf md sj, avatar_file w = Some af →
     Exists (λ o, ob_type o = ARMATURE) af →
     costume_file w = Some cf →
     Forall (λ o, ob_type o ≠ ARMATURE) cf →
     Exists (λ o, ob_type o = MESH) cf →
     mapping_file w = Some md → settings_file w = Some sj →
     export_raises w = false →
     ∃ e r, setup w = Ok e ∧ costume_armature e = None ∧
       costume_meshes e ≠ [] ∧ run w = Ok r ∧
       ∀ m, m ∈ costume_meshes e → is_Some (r_exported r !! m)).
Proof.
  split; [|split].
  - intros af. apply run_avatar_without_armature.
  - intros af cf. apply run_costume_without_content.
  - intros af cf md sj Haf Harm Hcf Hna Hm Hmd Hsj Hex.
    destruct (run_costume_without_armature w af cf Haf Harm Hcf md sj
                Hna Hm Hmd Hsj) as (e & Hs & Hc & Hne).
    destruct (retarget_no_rig e Hc) as [r Hr].
    assert (Hrun : run w = Ok r) by (by rewrite (run_setup _ _ Hs), Hex).
    exists e, r. repeat (split; [done|]).
    intros m Hin.
    pose proof (wf_meshes e (setup_wf _ _ Hs) m Hin) as Ht.
    apply has_type_Some in Ht as (o & Ho & _).
    destruct (run_mesh _ _ _ _ _ Hs Hrun Hin Ho) as (ms & lgm & _ & _ & ->).
    by eexists.
Qed.

(** An avatar without an armature, a costume without content, and the
    scarf that has no rig. *)
Lemma missing_skeleton_exits_samples :
  run w_bare_avatar = Exit1 AvatarNoArmature ∧
  run w_empty_costume = Exit1 CostumeNoContent ∧
  ∃ e r, setup w_no_rig = Ok e ∧ costume_armature e = None ∧
    costume_meshes e ≠ [] ∧ run w_no_rig = Ok r ∧
    ∀ m, m ∈ costume_meshes e → is_Some (r_exported r !! m).
Proof.
  split; [|split].
  - apply (proj1 (missing_skeleton_exits w_bare_avatar) _ eq_refl).
    repeat constructor; done.
  - apply (proj1 (proj2 (missing_skeleton_exits w_empty_costume))
             sample_avatar sample_locator eq_refl); [|reflexivity|..].
    + apply Exists_cons_hd. reflexivity.
    + repeat constructor; done.
    + repeat constructor; done.
  - apply (proj2 (proj2 (missing_skeleton_exits w_no_rig))
             sample_avatar sample_scarf
             (MappingData (Some [entry "Chest" "Chest"])) default_settings
             eq_refl); [|reflexivity| | |reflexivity..].
    + apply Exists_cons_hd. reflexivity.
    + repeat constructor; done.
    + apply Exists_cons_hd. reflexivity.
Defined.

(** ** The exported scene (specification, section 4.5) *)






(** ** What the renaming leaves alone *)



(** The unmapped names of the scene of section 8 after the run: the bone
    and the vertex group Sleeve. *)
Example sleeve_names_kept :
  (λ e, names <$> costume_bones_after e) <$> setup w_sleeve
    = Ok (Some ["Hip"; "Chest"; "Sleeve"]) ∧
  (λ r, group_names <$> r_exported r !! 3) <$> run w_sleeve
    = Ok (Some ["Hip"; "Chest"; "Sleeve"]).
Proof. split; by vm_compute. Qed.

(** ** Placement *)

(** C10.  Whatever the settings, every costume mesh of a finished run is
    at the origin, in the scene and in the exported file: the location it
    was imported with is discarded. *)
Theorem meshes_at_origin w e r m :
  setup w = Ok e → run w = Ok r → m ∈ costume_meshes e →
  ∃ o', r_objects r !! m = Some o' ∧ r_exported r !! m = Some o' ∧
        ob_location o' = origin.
Proof.
  intros Hs Hr Hm.
  pose proof (wf_meshes e (setup_wf _ _ Hs) m Hm) as Ht.
  apply has_type_Some in Ht as (o & Ho & _).
  destruct (run_mesh _ _ _ _ _ Hs Hr Hm Ho) as (ms & lgm & _ & Hf & He).
  by eexists.
Qed.

(** The jacket of section 8 is imported at (3, 4, 5). *)
Lemma meshes_at_origin_jacket :
  ∃ e r, setup w_sleeve = Ok e ∧ run w_sleeve = Ok r ∧
    (ob_location <$> objects e !! 3 = Some (3, 4, 5)%float) ∧
    ∃ o', r_objects r !! 3 = Some o' ∧ r_exported r !! 3 = Some o' ∧
          ob_location o' = origin.
Proof.
  eexists _, _. split; [reflexivity|]. split; [reflexivity|].
  split; [reflexivity|].
  eapply (meshes_at_origin w_sleeve _ _ 3).
  - reflexivity.
  - reflexivity.
  - apply list_elem_of_here.
Defined.

(* ================================================================== *)
(** * Further properties of the script *)

(** ** The command line *)

Lemma after_dashes_first pre rest :
  "--" ∉ pre → after_dashes (pre ++ "--" :: rest) = Some rest.
Proof.
  induction pre as [|a pre IH]; simpl; [done|].
  intros Hn. destruct (String.eqb_spec a "--") as [->|_].
  - exfalso. apply Hn. left.
  - apply IH. intros ?. apply Hn. by right.
Qed.

Lemma after_dashes_none argv : "--" ∉ argv → after_dashes argv = None.
Proof.
  induction argv as [|a argv IH]; simpl; [done|].
  intros Hn. destruct (String.eqb_spec a "--") as [->|_].
  - exfalso. apply Hn. left.
  - apply IH. intros ?. apply Hn. by right.
Qed.

Lemma after_dashes_Some argv rest :
  after_dashes argv = Some rest →
  ∃ pre, argv = pre ++ "--" :: rest ∧ "--" ∉ pre.
Proof.
  induction argv as [|a argv IH]; simpl; [done|].
  destruct (String.eqb_spec a "--") as [->|Hne].
  - intros [= ->]. exists []. split; [done|]. by intros ?%elem_of_nil.
  - intros (pre & -> & Hn)%IH. exists (a :: pre). split; [done|].
    by intros [?|?]%elem_of_cons.
Qed.

(** The arguments are read after the first ["--"]: what stands before it
    is ignored, a later ["--"] is an argument like any other, and arguments
    beyond the fifth are ignored.  Fewer than five arguments end the script
    with exit status 1, and a command line without ["--"] ends it with the
    uncaught [ValueError]. *)
Theorem parse_args_spec argv :
  match parse_args argv with
  | Args f =>
      ∃ pre extra,
        ("--" ∉ pre) ∧
        argv = pre ++ "--" :: avatar_path f :: costume_path f ::
                 result_path f :: mapping_path f :: settings_path f :: extra
  | ArgsExit1 =>
      ∃ pre rest,
        ("--" ∉ pre) ∧ argv = pre ++ "--" :: rest ∧ length rest < 5
  | ArgsValueError => "--" ∉ argv
  end.
Proof.
  unfold parse_args. destruct (after_dashes argv) as [rest|] eqn:Ha.
  - apply after_dashes_Some in Ha as (pre & -> & Hn).
    destruct rest as [|a [|c [|r [|m [|s extra]]]]];
      try (exists pre; eexists; repeat split; [done..|simpl; lia]).
    exists pre, extra. by split.
  - intros (l1 & l2 & ->)%list_elem_of_split.
    assert (∃ pre rest, l1 ++ "--" :: l2 = pre ++ "--" :: rest ∧ "--" ∉ pre)
      as (pre & rest & Heq & Hn).
    { clear Ha. induction l1 as [|a l1 IH]; simpl.
      - exists [], l2. split; [done|]. by intros ?%elem_of_nil.
      - destruct (decide (a = "--")) as [->|Hne].
        + exists [], (l1 ++ "--" :: l2). split; [done|]. by intros ?%elem_of_nil.
        + destruct IH as (pre & rest & -> & Hn). exists (a :: pre), rest.
          split; [done|]. by intros [?|?]%elem_of_cons. }
    rewrite Heq, after_dashes_first in Ha; done.
Qed.

(** Conversely, the three shapes of a command line decide the outcome. *)
Lemma parse_args_complete pre rest :
  "--" ∉ pre →
  parse_args (pre ++ "--" :: rest) =
    match rest with
    | a :: c :: r :: m :: s :: _ => Args (FileNames a c r m s)
    | _ => ArgsExit1
    end.
Proof. intros Hn. unfold parse_args. by rewrite after_dashes_first. Qed.

Example parse_args_blender :
  parse_args ["blender"; "--background"; "--python"; "apply_costume.py";
              "--"; "a.fbx"; "c.fbx"; "out.fbx"; "--"; "s.json"; "more"]
    = Args (FileNames "a.fbx" "c.fbx" "out.fbx" "--" "s.json") ∧
  parse_args ["blender"; "--"; "a.fbx"; "c.fbx"; "out.fbx"; "m.json"]
    = ArgsExit1 ∧
  parse_args ["blender"; "a.fbx"; "c.fbx"; "out.fbx"; "m.json"; "s.json"]
    = ArgsValueError.
Proof. by vm_compute. Qed.

(** ** Which armature and which meshes (lines 55-60 and 80-87) *)

Lemma filter_all {A} (P : A → Prop) `{∀ x, Decision (P x)} (l : list A) :
  Forall P l → filter P l = l.
Proof.
  induction 1 as [|x l Hx _ IH]; [done|].
  by rewrite filter_cons_True, IH.
Qed.

(** The filter of line 72 drops nothing: an import selects new objects. *)
Lemma costume_objects_all af cf :
  filter (λ i, i ∉ selected_objects 0 af) (selected_objects (length af) cf)
    = selected_objects (length af) cf.
Proof.
  apply filter_all, Forall_forall. intros i Hi.
  by apply costume_objects_elem in Hi as [? _]%list_elem_of_filter.
Qed.

Lemma find_avatar_armature_first objs b n a :
  find_avatar_armature objs (seq b n) = Some a →
  ∀ j, b ≤ j < a → has_type objs ARMATURE j = false.
Proof.
  revert b. induction n as [|n IH]; intros b; simpl; [done|].
  destruct (has_type objs ARMATURE b) eqn:Hb.
  - intros [= <-] j Hj. lia.
  - intros Ha j Hj. destruct (decide (j = b)) as [->|Hne]; [done|].
    apply (IH _ Ha). lia.
Qed.

Lemma classify_last objs acc b n c :
  (foldl (classify objs) acc (seq b n)).1 = Some c →
  (∀ j, b ≤ j < b + n → c < j → has_type objs ARMATURE j = false) ∧
  ((b ≤ c < b + n ∧ has_type objs ARMATURE c = true) ∨
   (acc.1 = Some c ∧ ∀ j, b ≤ j < b + n → has_type objs ARMATURE j = false)).
Proof.
  induction n as [|n IH].
  - simpl. intros Hc. split; [intros; lia|]. right. split; [done|].
    intros; lia.
  - rewrite seq_S, foldl_app. simpl. unfold classify at 1.
    destruct (has_type objs ARMATURE (b + n)) eqn:Hn; simpl.
    + intros [= <-]. split; [intros; lia|]. left. split; [lia | done].
    + intros Hc.
      assert (Hc' : (foldl (classify objs) acc (seq b n)).1 = Some c)
        by (by destruct (has_type objs MESH (b + n))).
      destruct (IH Hc') as [Hafter Hcases]. split.
      * intros j Hj Hcj. destruct (decide (j = b + n)) as [->|Hne]; [done|].
        apply Hafter; lia.
      * destruct Hcases as [[Hr Ht]|[Ha Hnone]].
        -- left. split; [lia | done].
        -- right. split; [done|]. intros j Hj.
           destruct (decide (j = b + n)) as [->|Hne]; [done|].
           apply Hnone. lia.
Qed.

(** Without an armature among the handles, none is found. *)
Lemma classify_none objs acc b n :
  (foldl (classify objs) acc (seq b n)).1 = None →
  ∀ j, b ≤ j < b + n → has_type objs ARMATURE j = false.
Proof.
  induction n as [|n IH].
  - intros _ j Hj. lia.
  - rewrite seq_S, foldl_app. simpl. unfold classify at 1.
    destruct (has_type objs ARMATURE (b + n)) eqn:Hn; simpl; [done|].
    intros Hc j Hj. destruct (decide (j = b + n)) as [->|Hne]; [done|].
    apply IH; [|lia]. by destruct (has_type objs MESH (b + n)).
Qed.

Lemma has_type_import_inv base file objs t k :
  k < length file →
  has_type (add_objects base file objs) t (base + k) = true →
  ∃ o, file !! k = Some o ∧ ob_type o = t.
Proof.
  intros Hk. destruct (lookup_lt_is_Some_2 file k Hk) as [o Ho].
  rewrite (has_type_import _ _ _ _ _ _ Ho). intros ?%bool_decide_eq_true.
  by exists o.
Qed.

Lemma has_type_import_false base file objs t k o :
  file !! k = Some o →
  has_type (add_objects base file objs) t (base + k) = false →
  ob_type o ≠ t.
Proof.
  intros Ho. rewrite (has_type_import _ _ _ _ _ _ Ho).
  by intros ?%bool_decide_eq_false.
Qed.

(** The avatar armature is the first armature of the avatar file, because
    the loop of lines 57-60 breaks; the costume armature is the last
    armature of the costume file, because the loop of lines 83-87 does not.
    The handle of an object is its position in its file, counted after the
    objects of the avatar file. *)
Theorem armature_choice w e af cf :
  setup w = Ok e → avatar_file w = Some af → costume_file w = Some cf →
  (∃ o, af !! avatar_armature e = Some o ∧ ob_type o = ARMATURE ∧
     ∀ j o', j < avatar_armature e → af !! j = Some o' →
             ob_type o' ≠ ARMATURE) ∧
  (∀ c, costume_armature e = Some c →
     ∃ k o, c = length af + k ∧ cf !! k = Some o ∧ ob_type o = ARMATURE ∧
       ∀ j o', k < j → cf !! j = Some o' → ob_type o' ≠ ARMATURE) ∧
  (costume_armature e = None → Forall (λ o, ob_type o ≠ ARMATURE) cf).
Proof.
  intros Hs Haf Hcf.
  apply setup_Ok in Hs
    as (af' & cf' & md & sj & Haf' & Hcf' & _ & _ & Ho & Haa & Hcl & _).
  assert (af' = af) as -> by congruence.
  assert (cf' = cf) as -> by congruence.
  rewrite costume_objects_all in Hcl. unfold selected_objects in *.
  split; [|split].
  - pose proof (find_avatar_armature_first _ _ _ _ Haa) as Hfirst.
    apply find_avatar_armature_Some in Haa as [Hin%elem_of_seq Ht].
    apply (has_type_import_inv 0) in Ht as (o & Hk & Hty); [|lia].
    exists o. split; [done|]. split; [done|].
    intros j o' Hj Hj'. apply (has_type_import_false 0 af ∅ _ j o' Hj').
    apply Hfirst. lia.
  - intros c Hc. pose proof (f_equal fst Hcl) as H1. simpl in H1.
    rewrite Hc in H1. apply classify_last in H1 as [Hafter [[Hr Ht]|[? _]]];
      [|done].
    exists (c - length af).
    replace c with (length af + (c - length af)) in Ht by lia.
    rewrite Ho in Ht. apply has_type_import_inv in Ht as (o & Hk & Hty); [|lia].
    exists o. split; [lia|]. split; [done|]. split; [done|].
    intros j o' Hj Hj'. pose proof (lookup_lt_Some _ _ _ Hj').
    eapply (has_type_import_false (length af) cf _ _ j o' Hj').
    rewrite <- Ho. apply Hafter; lia.
  - intros Hc. pose proof (f_equal fst Hcl) as H1. simpl in H1.
    rewrite Hc in H1. apply Forall_forall. intros o [k Hk]%list_elem_of_lookup_1.
    pose proof (lookup_lt_Some _ _ _ Hk).
    eapply (has_type_import_false (length af) cf _ _ k o Hk).
    rewrite <- Ho. apply (classify_none _ _ _ _ H1). lia.
Qed.

(** Two armatures on each side: the first of the avatar and the last of
    the costume are used. *)
Lemma armature_choice_two_rigs :
  ∃ e, setup w_two_rigs = Ok e ∧
    avatar_armature e = 0 ∧ costume_armature e = Some 4 ∧
    (∃ o, sample_two_avatar_rigs !! avatar_armature e = Some o ∧
       ob_type o = ARMATURE ∧
       ∀ j o', j < avatar_armature e → sample_two_avatar_rigs !! j = Some o' →
               ob_type o' ≠ ARMATURE) ∧
    (∀ c, costume_armature e = Some c →
       ∃ k o, c = length sample_two_avatar_rigs + k ∧
         sample_two_costume_rigs !! k = Some o ∧ ob_type o = ARMATURE ∧
         ∀ j o', k < j → sample_two_costume_rigs !! j = Some o' →
                 ob_type o' ≠ ARMATURE) ∧
    (costume_armature e = None →
     Forall (λ o, ob_type o ≠ ARMATURE) sample_two_costume_rigs).
Proof.
  eexists. split; [reflexivity|]. split; [reflexivity|].
  split; [reflexivity|].
  apply (armature_choice w_two_rigs _ sample_two_avatar_rigs
           sample_two_costume_rigs); reflexivity.
Defined.

(** The costume meshes are the meshes of the costume file, in the order of
    the file and each once; their handles are new, so none is the avatar
    armature or the costume armature. *)
Theorem costume_meshes_of_file w e af cf :
  setup w = Ok e → avatar_file w = Some af → costume_file w = Some cf →
  costume_meshes e =
    filter (λ i, has_type (objects e) MESH i = true)
           (selected_objects (length af) cf) ∧
  (∀ m, m ∈ costume_meshes e ↔
     ∃ k o, m = length af + k ∧ cf !! k = Some o ∧ ob_type o = MESH) ∧
  NoDup (costume_meshes e) ∧
  (avatar_armature e ∉ costume_meshes e) ∧
  (∀ c, costume_armature e = Some c → c ∉ costume_meshes e).
Proof.
  intros Hs Haf Hcf. pose proof (setup_wf _ _ Hs) as Hwf.
  apply setup_Ok in Hs
    as (af' & cf' & md & sj & Haf' & Hcf' & _ & _ & Ho & _ & Hcl & _).
  assert (af' = af) as -> by congruence.
  assert (cf' = cf) as -> by congruence.
  rewrite costume_objects_all in Hcl.
  pose proof (f_equal snd Hcl) as H2. simpl in H2.
  rewrite classify_meshes in H2. simpl in H2.
  split; [done|]. split; [|split; [|split]].
  - intros m. rewrite <- H2, list_elem_of_filter. split.
    + intros [Ht Hm]. destruct (selected_objects_lookup _ _ _ Hm)
        as (k & o & -> & Hk).
      exists k, o. split; [done|]. split; [done|].
      rewrite Ho, (has_type_import _ _ _ _ _ _ Hk) in Ht.
      by apply bool_decide_eq_true in Ht.
    + intros (k & o & -> & Hk & Ht). split.
      * rewrite Ho, (has_type_import _ _ _ _ _ _ Hk).
        by apply bool_decide_eq_true_2.
      * apply elem_of_seq. pose proof (lookup_lt_Some _ _ _ Hk). lia.
  - apply Hwf.
  - intros Hm%(wf_meshes e Hwf).
    by pose proof (has_type_unique _ _ _ _ Hm (wf_avatar e Hwf)).
  - intros c Hc Hm%(wf_meshes e Hwf).
    destruct (wf_armature e Hwf c Hc) as [Ha _].
    by pose proof (has_type_unique _ _ _ _ Hm Ha).
Qed.

Lemma costume_meshes_of_file_two_rigs :
  ∃ e, setup w_two_rigs = Ok e ∧ costume_meshes e = [3] ∧
    (∀ m, m ∈ costume_meshes e ↔
       ∃ k o, m = length sample_two_avatar_rigs + k ∧
              sample_two_costume_rigs !! k = Some o ∧ ob_type o = MESH) ∧
    NoDup (costume_meshes e) ∧
    (avatar_armature e ∉ costume_meshes e) ∧
    (∀ c, costume_armature e = Some c → c ∉ costume_meshes e).
Proof.
  eexists. split; [reflexivity|].
  destruct (costume_meshes_of_file w_two_rigs _ sample_two_avatar_rigs
              sample_two_costume_rigs eq_refl eq_refl eq_refl) as [H1 H2].
  split; [exact H1 | exact H2].
Defined.

(** ** How the loading stage ends (lines 43-106) *)

Lemma find_avatar_armature_None_inv objs l :
  find_avatar_armature objs l = None →
  ∀ i, i ∈ l → has_type objs ARMATURE i = false.
Proof.
  induction l as [|j l IH]; simpl; [by intros _ i ?%elem_of_nil|].
  destruct (has_type objs ARMATURE j) eqn:Hj; [done|].
  intros Hn i [->|Hi]%elem_of_cons; [done | by apply IH].
Qed.

Lemma no_type_in_import_inv base file objs t :
  (∀ i, i ∈ selected_objects base file →
        has_type (add_objects base file objs) t i = false) →
  Forall (λ o, ob_type o ≠ t) file.
Proof.
  intros H. apply Forall_forall. intros o [k Hk]%list_elem_of_lookup_1.
  pose proof (lookup_lt_Some _ _ _ Hk).
  eapply (has_type_import_false base file objs t k o Hk), H.
  apply elem_of_seq. lia.
Qed.

Lemma type_in_import base file objs t i :
  i ∈ selected_objects base file →
  has_type (add_objects base file objs) t i = true →
  Exists (λ o, ob_type o = t) file.
Proof.
  intros (k & o & -> & Hk)%selected_objects_lookup.
  rewrite (has_type_import _ _ _ _ _ _ Hk). intros Ht%bool_decide_eq_true.
  apply Exists_exists. exists o. split; [|done].
  by eapply list_elem_of_lookup_2.
Qed.

Lemma Forall_not_Exists {A} (P : A → Prop) (l : list A) :
  Forall (λ x, ¬ P x) l → Exists P l → False.
Proof.
  intros Hall (x & Hx & HP)%Exists_exists.
  by apply (proj1 (Forall_forall _ _) Hall x).
Qed.

Lemma setup_cases w : loading_verdict w (setup w).
Proof.
  unfold loading_verdict, setup.
  destruct (avatar_file w) as [af|] eqn:Haf; [|done]. simpl.
  rewrite (bool_decide_ext _ _ (selected_objects_nil 0 af)).
  case_bool_decide as Hafn; simpl; [by subst|].
  destruct (find_avatar_armature _ _) as [aa|] eqn:Haa; simpl; last first.
  { exists af. split; [done|]. split; [done|].
    eapply no_type_in_import_inv, find_avatar_armature_None_inv, Haa. }
  assert (Hav : avatar_usable w).
  { exists af. split; [done|].
    apply find_avatar_armature_Some in Haa as [Hin Ht].
    by eapply type_in_import. }
  destruct (costume_file w) as [cf|] eqn:Hcf; [|done]. simpl.
  rewrite (bool_decide_ext _ _ (costume_objects_nil af cf)).
  case_bool_decide as Hcfn; simpl; [by subst|].
  rewrite costume_objects_all.
  destruct (foldl _ _ _) as [ca meshes] eqn:Hcl.
  pose proof (f_equal fst Hcl) as H1. pose proof (f_equal snd Hcl) as H2.
  simpl in H1, H2. rewrite classify_meshes in H2. simpl in H2.
  destruct (bool_decide (ca = None) && bool_decide (meshes = [])) eqn:Hc;
    simpl.
  - apply andb_true_iff in Hc as [Hca%bool_decide_eq_true Hm%bool_decide_eq_true].
    split; [done|]. exists cf. split; [done|]. split; [done|]. split.
    + eapply no_type_in_import_inv. intros i Hi%elem_of_seq.
      apply (classify_none _ _ _ _ (eq_trans H1 Hca)). lia.
    + eapply no_type_in_import_inv. intros i Hi.
      destruct (has_type _ MESH i) eqn:Ht; [|done].
      assert (i ∈ meshes) as Hin.
      { rewrite <- H2. by apply list_elem_of_filter. }
      rewrite Hm in Hin. by apply elem_of_nil in Hin.
  - assert (Hco : costume_usable w).
    { exists cf. split; [done|].
      apply andb_false_iff in Hc as [Hca%bool_decide_eq_false|Hm%bool_decide_eq_false].
      - left. destruct ca as [c|]; [|done].
        apply classify_last in H1 as [_ [[Hr Ht]|[? _]]]; [|done].
        eapply type_in_import; [|exact Ht]. apply elem_of_seq. lia.
      - right. destruct meshes as [|m ms]; [done|].
        assert (m ∈ m :: ms) as Hin by left.
        rewrite <- H2 in Hin. apply list_elem_of_filter in Hin as [Ht Hin].
        by eapply type_in_import. }
    destruct (mapping_file w) as [md|]; simpl; [|by repeat split; try left].
    destruct (settings_file w) as [sj|]; simpl; [|by repeat split; try right].
    by repeat split.
Qed.

(** The exit of the loading stage names the first input at fault, in the
    order the script checks them: the avatar import, the avatar armature,
    the costume import, the costume content, and only then the two JSON
    files.  Loading succeeds exactly when the avatar file has an armature,
    the costume file has an armature or a mesh, and both JSON files load.
    The loading stage never ends with the export error or an uncaught
    exception. *)
Theorem setup_outcome w :
  loading_verdict w (setup w) ∧
  (avatar_usable w → costume_usable w →
   is_Some (mapping_file w) → is_Some (settings_file w) →
   ∃ e, setup w = Ok e).
Proof.
  split; [apply setup_cases|].
  intros (af & Haf & Ha) (cf & Hcf & Hc) [md Hmd] [sj Hsj].
  pose proof (setup_cases w) as H. unfold loading_verdict in H.
  destruct (setup w) as [e|c|]; [by eexists | | done]. exfalso.
  destruct c; try congruence.
  - apply Exists_exists in Ha as (o & Ho & _). rewrite Haf in H.
    injection H as ->. by apply elem_of_nil in Ho.
  - destruct H as (af' & Haf' & _ & Hall).
    assert (af' = af) as -> by congruence.
    by eapply (Forall_not_Exists (λ o, ob_type o = ARMATURE)).
  - destruct H as [_ H]. congruence.
  - destruct H as [_ H]. rewrite Hcf in H. injection H as ->.
    destruct Hc as [Hc|Hc]; apply Exists_exists in Hc as (o & Ho & _);
      by apply elem_of_nil in Ho.
  - destruct H as (_ & cf' & Hcf' & _ & Hna & Hnm).
    assert (cf' = cf) as -> by congruence.
    destruct Hc as [Hc|Hc].
    + by eapply (Forall_not_Exists (λ o, ob_type o = ARMATURE)).
    + by eapply (Forall_not_Exists (λ o, ob_type o = MESH)).
  - destruct H as (_ & _ & [H|H]); congruence.
Qed.

(** The scene of section 8 loads; an avatar without an armature is
    reported before anything else. *)
Lemma setup_outcome_samples :
  (∃ e, setup w_sleeve = Ok e) ∧
  loading_verdict w_bare_avatar (Exit1 AvatarNoArmature).
Proof.
  split.
  - apply (proj2 (setup_outcome w_sleeve)).
    + exists sample_avatar. split; [reflexivity|].
      apply Exists_cons_hd. reflexivity.
    + exists sample_jacket. split; [reflexivity|]. left.
      apply Exists_cons_hd. reflexivity.
    + by eexists.
    + by eexists.
  - apply (proj1 (setup_outcome w_bare_avatar)).
Defined.

(** ** How the processing ends (lines 133-219) *)

Lemma retarget_modifiers_outcome e m ms :
  if decide (is_Some (costume_armature e) ∧ Exists unset_target ms)
  then retarget_modifiers e m ms = Raised
  else ∃ r, retarget_modifiers e m ms = Ok r.
Proof.
  induction ms as [|x ms IH]; simpl.
  - rewrite decide_False; [by eexists|]. by intros [_ ?%Exists_nil].
  - unfold retarget_modifier.
    destruct (decide (is_Some (costume_armature e))) as [Hc|Hc]; last first.
    { rewrite (bool_decide_eq_false_2 _ Hc), andb_false_r. simpl.
      rewrite decide_False in IH by tauto. destruct IH as [r ->]. simpl.
      rewrite decide_False by tauto. by eexists. }
    rewrite (bool_decide_eq_true_2 _ Hc), andb_true_r.
    destruct (decide (unset_target x)) as [[Ht Ho]|Hx].
    + rewrite decide_True by (split; [done|]; by left).
      by rewrite (bool_decide_eq_true_2 _ Ht), Ho.
    + assert (Hok : ∃ r, (if bool_decide (mod_type x = MOD_ARMATURE)
                    then match mod_object x with
                         | Some old =>
                             Ok (Modifier (mod_type x) (Some (avatar_armature e)),
                                 [LogModifierRetargeted m old (avatar_armature e)])
                         | None => Raised
                         end
                    else Ok (x, [])) = Ok r).
      { case_bool_decide as Ht; [|by eexists].
        destruct (mod_object x) eqn:Ho; [by eexists|].
        exfalso. by apply Hx. }
      destruct Hok as [r ->]. simpl.
      destruct (decide (is_Some (costume_armature e) ∧ Exists unset_target ms))
        as [Hms|Hms].
      * rewrite IH. rewrite decide_True; [done|].
        split; [done|]. right. apply Hms.
      * destruct IH as [rs ->]. simpl. rewrite decide_False; [by eexists|].
        intros [_ [?|?]%Exists_cons]; tauto.
Qed.

Lemma process_mesh_outcome e m o :
  if decide (is_Some (costume_armature e) ∧ Exists unset_target (ob_modifiers o))
  then process_mesh e m o = Raised
  else ∃ ms lg, process_mesh e m o = Ok (mesh_after e ms o, lg).
Proof.
  pose proof (retarget_modifiers_outcome e m (ob_modifiers o)) as H.
  pose proof (process_mesh_cases e m o) as Hp.
  case_decide.
  - by rewrite H in Hp.
  - destruct H as [r Hr]. rewrite Hr in Hp. destruct Hp as [lg ->].
    by eexists _, _.
Qed.

Lemma mesh_after_modifiers e ms o : ob_modifiers (mesh_after e ms o) = ms.
Proof. done. Qed.

(** The loop over the meshes raises when one of them has an armature
    modifier without an object while the costume has an armature. *)
Lemma mesh_stage_raises e ms objs m o :
  NoDup ms → is_Some (costume_armature e) →
  m ∈ ms → objs !! m = Some o → Exists unset_target (ob_modifiers o) →
  mesh_stage e ms objs = Raised.
Proof.
  intros Hnd Hc Hm Ho Hx. revert objs Ho.
  induction ms as [|m' ms IH]; intros objs Ho; [by apply elem_of_nil in Hm|].
  apply NoDup_cons in Hnd as [Hm' Hnd]. simpl.
  destruct (decide (m' = m)) as [->|Hne].
  - rewrite Ho. pose proof (process_mesh_outcome e m o) as Hp.
    rewrite decide_True in Hp by done. by rewrite Hp.
  - apply elem_of_cons in Hm as [?|Hm]; [done|].
    destruct (objs !! m') as [o'|]; [|by apply IH].
    pose proof (process_mesh_outcome e m' o') as Hp. case_decide.
    + by rewrite Hp.
    + destruct Hp as (ms' & lg & ->). simpl.
      rewrite IH; [done..|]. by rewrite lookup_insert_ne.
Qed.

(** Otherwise it runs to its end. *)
Lemma mesh_stage_runs e ms objs :
  NoDup ms →
  ¬ (is_Some (costume_armature e) ∧
     ∃ m o, m ∈ ms ∧ objs !! m = Some o ∧
            Exists unset_target (ob_modifiers o)) →
  ∃ r, mesh_stage e ms objs = Ok r.
Proof.
  revert objs. induction ms as [|m ms IH]; intros objs Hnd Hno; simpl.
  - by eexists.
  - apply NoDup_cons in Hnd as [Hm Hnd].
    destruct (objs !! m) as [o|] eqn:Ho.
    + pose proof (process_mesh_outcome e m o) as Hp. case_decide as Hbad.
      * exfalso. apply Hno. split; [apply Hbad|].
        exists m, o. split; [left|]. split; [done | apply Hbad].
      * destruct Hp as (ms' & lg & ->). simpl.
        destruct (IH (<[m:=mesh_after e ms' o]> objs) Hnd) as [r ->];
          [|by eexists].
        intros [Hc (m' & o' & Hm' & Ho' & Hx)]. apply Hno. split; [done|].
        exists m', o'. split; [by right|]. split; [|done].
        rewrite lookup_insert_ne in Ho'; [done|]. by intros ->.
    + apply IH; [done|]. intros [Hc (m' & o' & Hm' & Ho' & Hx)].
      apply Hno. split; [done|]. exists m', o'. split; [by right | done].
Qed.

(** Once everything is loaded a run ends in one of three ways.  It ends
    with the uncaught exception of line 156 when the costume has an armature
    and a costume mesh has an armature modifier without an object, whether
    or not the exporter would raise; otherwise it ends with exit status 1
    when the exporter raises, and it finishes when the exporter does not. *)
Theorem run_outcome w e :
  setup w = Ok e →
  (unprintable e → run w = Raised) ∧
  (¬ unprintable e → export_raises w = true → run w = Exit1 ExportError) ∧
  (¬ unprintable e → export_raises w = false → ∃ r, run w = Ok r).
Proof.
  intros Hs. pose proof (setup_wf _ _ Hs) as Hwf.
  rewrite (run_setup _ _ Hs). unfold retarget.
  assert (Hlook : ∀ m, m ∈ costume_meshes e →
            (armature_stage e).1 !! m = objects e !! m).
  { intros m Hm. apply armature_stage_lookup_ne.
    intros [Ha _]%(wf_armature e Hwf).
    by pose proof (has_type_unique _ _ _ _ (wf_meshes e Hwf m Hm) Ha). }
  destruct (armature_stage e) as [objs1 lg1]. simpl in Hlook.
  split; [|split].
  - intros [Hc (m & o & Hm & Ho & Hx)].
    rewrite (mesh_stage_raises e _ objs1 m o); try done; [apply Hwf|].
    by rewrite Hlook.
  - intros Hno Hex.
    destruct (mesh_stage_runs e (costume_meshes e) objs1) as [r ->];
      [apply Hwf| |].
    + intros [Hc (m & o & Hm & Ho & Hx)]. apply Hno. split; [done|].
      exists m, o. rewrite Hlook in Ho by done. done.
    + simpl. destruct (removal_stage e _). by rewrite Hex.
  - intros Hno Hex.
    destruct (mesh_stage_runs e (costume_meshes e) objs1) as [r ->];
      [apply Hwf| |].
    + intros [Hc (m & o & Hm & Ho & Hx)]. apply Hno. split; [done|].
      exists m, o. rewrite Hlook in Ho by done. done.
    + simpl. destruct (removal_stage e _). rewrite Hex. by eexists.
Qed.

(** A jacket whose armature modifier has no object stops the run; the
    scene of section 8 ends with the exporter. *)
Lemma run_outcome_samples :
  run w_unset = Raised ∧
  run (with_export true w_sleeve) = Exit1 ExportError ∧
  ∃ r, run w_sleeve = Ok r.
Proof.
  assert (Hok : ∀ e, setup w_sleeve = Ok e → ¬ unprintable e).
  { intros e [= <-] [_ (m & o & Hm & Ho & Hx)]. vm_compute in Hm.
    apply list_elem_of_singleton in Hm as ->. vm_compute in Ho.
    injection Ho as <-. simpl in Hx.
    apply Exists_cons in Hx as [[_ Hx]|Hx%Exists_nil]; done. }
  split; [|split].
  - eapply (proj1 (run_outcome w_unset _ eq_refl)).
    split; [by eexists|]. eexists 3, _. split; [apply list_elem_of_here|].
    split; [reflexivity|]. apply Exists_cons_hd. by split.
  - eapply (proj1 (proj2 (run_outcome (with_export true w_sleeve) _ eq_refl)));
      [|reflexivity]. by apply Hok.
  - eapply (proj2 (proj2 (run_outcome w_sleeve _ eq_refl))); [|reflexivity].
    by apply Hok.
Defined.

(** ** The settings the script reads and never uses (lines 117-123) *)

Section same_scale.
Context (e e' : env).
Hypothesis Hsame : same_but_settings e e'.
Hypothesis Hsc : scaling (cfg e) = scaling (cfg e').
Hypothesis Hgs : global_scale (cfg e) = global_scale (cfg e').

Lemma armature_stage_same_scale : armature_stage e = armature_stage e'.
Proof.
  destruct Hsame as (Ho & _ & Hc & _ & Hb).
  unfold armature_stage, process_armature.
  by rewrite Ho, Hc, Hb, Hsc, Hgs.
Qed.

Lemma process_mesh_same_scale m o : process_mesh e m o = process_mesh e' m o.
Proof.
  destruct Hsame as (_ & Ha & Hc & _ & Hb).
  unfold process_mesh, update_groups, scale_mesh.
  rewrite (retarget_modifiers_env e e' m _ Hc Ha).
  by rewrite Ha, Hc, Hb, Hsc, Hgs.
Qed.

Lemma mesh_stage_same_scale ms objs :
  mesh_stage e ms objs = mesh_stage e' ms objs.
Proof.
  revert objs. induction ms as [|m ms IH]; intros objs; simpl; [done|].
  destruct (objs !! m) as [o|]; [|done].
  rewrite process_mesh_same_scale.
  destruct (process_mesh e' m o) as [[o1 lg1]| |]; simpl; [|done..].
  by rewrite IH.
Qed.

Lemma retarget_same_scale raises :
  filter (λ ev, is_echo ev = false) (setup_log e)
    = filter (λ ev, is_echo ev = false) (setup_log e') →
  output <$> retarget e raises = output <$> retarget e' raises.
Proof.
  intros Hlog. unfold retarget.
  rewrite armature_stage_same_scale.
  destruct (armature_stage e') as [objs1 lg1].
  destruct Hsame as (Ho & Ha & Hc & Hm & Hb).
  rewrite Hm, mesh_stage_same_scale.
  destruct (mesh_stage e' _ objs1) as [[objs2 lg2]| |]; simpl; [|done..].
  unfold removal_stage, selection_stage, export_objects.
  rewrite Ha, Hc, Hm.
  destruct (costume_armature e'); destruct raises; simpl; try done;
    unfold output; simpl; by rewrite !filter_app, Hlog.
Qed.
End same_scale.

(** Of the six settings only [globalScale] and [adjustScale] reach the
    result: two settings files that agree on these two give the same scene,
    the same exported file and the same printed lines apart from the echo of
    the settings, or the same exit, whatever they say for
    [detectStructuralDifferences], [adjustRotation], [adjustBindPoses] and
    [redistributeWeights]. *)
Theorem unused_settings w sj sj' :
  globalScale sj = globalScale sj' → adjustScale sj = adjustScale sj' →
  output <$> run (with_settings sj w) = output <$> run (with_settings sj' w).
Proof.
  intros Hg Ha. walk_setup w.
  destruct (mapping_file w) as [md|]; [|done]. simpl.
  apply retarget_same_scale; try done; simpl.
  - unfold scaling. simpl. by rewrite Hg, Ha.
  - by rewrite Hg.
Qed.

(** All four unused settings switched off change nothing in the scene of
    section 8. *)
Lemma unused_settings_sleeve :
  output <$> run (with_settings default_settings w_sleeve)
  = output <$> run (with_settings
                      (SettingsJson None (Some false) None (Some false)
                                    (Some false) (Some false)) w_sleeve).
Proof. apply unused_settings; reflexivity. Defined.

(** ** Scale, where it applies (lines 144-147 and 174-177) *)



(** A [globalScale] that is not a number differs from 1.0, so it is
    applied. *)
Example scale_nan :
  (λ r, ob_scale <$> r_exported r !! 3)
    <$> run (with_settings (with_scale (Some PrimFloat.nan) None
                              default_settings) w_sleeve)
    = Ok (Some (PrimFloat.nan, PrimFloat.nan, PrimFloat.nan)).
Proof. by vm_compute. Qed.

(** ** The modifiers (lines 153-157) *)

Lemma retarget_modifiers_Ok e m ms ms' lg :
  retarget_modifiers e m ms = Ok (ms', lg) → ms' = retargeted e <$> ms.
Proof.
  revert ms' lg. induction ms as [|x ms IH]; intros ms' lg; simpl.
  - by intros [= <- _].
  - destruct (retarget_modifier e m x) as [[x' lx]| |] eqn:Hx; simpl; [|done..].
    destruct (retarget_modifiers e m ms) as [[r lr]| |]; simpl; [|done..].
    intros [= <- _]. simpl. f_equal; [|by eapply IH].
    unfold retarget_modifier, retargeted in *.
    destruct (_ && _); [destruct (mod_object x)|]; by simplify_eq.
Qed.

(** A finished run keeps the modifiers of a costume mesh in number and in
    order.  When the costume has an armature each armature modifier points
    at the avatar armature; every other modifier, and every modifier when
    the costume has no armature, is unchanged. *)
Theorem modifiers_retargeted w e r m o :
  setup w = Ok e → run w = Ok r →
  m ∈ costume_meshes e → objects e !! m = Some o →
  ∃ o', r_exported r !! m = Some o' ∧
    ob_modifiers o' = retargeted e <$> ob_modifiers o ∧
    (costume_armature e = None → ob_modifiers o' = ob_modifiers o) ∧
    ∀ i x, ob_modifiers o !! i = Some x → mod_type x ≠ MOD_ARMATURE →
           ob_modifiers o' !! i = Some x.
Proof.
  intros Hs Hr Hm Ho.
  destruct (run_mesh _ _ _ _ _ Hs Hr Hm Ho) as (ms & lgm & Hms & _ & He).
  apply retarget_modifiers_Ok in Hms as ->.
  eexists. split; [exact He|]. simpl. split; [done|]. split.
  - intros Hc. rewrite <- (list_fmap_id (ob_modifiers o)) at 2.
    apply list_fmap_ext. intros i x _. unfold retargeted.
    rewrite Hc. by rewrite andb_false_r.
  - intros i x Hx Ht. rewrite list_lookup_fmap, Hx. simpl.
    unfold retargeted. by rewrite (bool_decide_eq_false_2 _ Ht).
Qed.

(** The shawl has an armature modifier and a modifier of another type. *)
Lemma modifiers_retargeted_shawl :
  ∃ e r o,
    setup w_two_rigs = Ok e ∧ run w_two_rigs = Ok r ∧
    objects e !! 3 = Some o ∧
    ob_modifiers o = [Modifier MOD_ARMATURE (Some 2); Modifier MOD_OTHER None] ∧
    ∃ o', r_exported r !! 3 = Some o' ∧
      ob_modifiers o' = retargeted e <$> ob_modifiers o ∧
      (costume_armature e = None → ob_modifiers o' = ob_modifiers o) ∧
      ∀ i x, ob_modifiers o !! i = Some x → mod_type x ≠ MOD_ARMATURE →
             ob_modifiers o' !! i = Some x.
Proof.
  eexists _, _, _. split; [reflexivity|]. split; [reflexivity|].
  split; [reflexivity|]. split; [reflexivity|].
  eapply (modifiers_retargeted w_two_rigs _ _ 3 _).
  - reflexivity.
  - reflexivity.
  - apply list_elem_of_here.
  - reflexivity.
Defined.

(** ** The rest of the scene (lines 183-200) *)

Lemma run_scene w e r :
  setup w = Ok e → run w = Ok r →
  ∃ objs2 lg2,
    mesh_stage e (costume_meshes e) (armature_stage e).1 = Ok (objs2, lg2) ∧
    (∀ k, r_objects r !! k =
       (λ o, select_set (bool_decide (k ∈ export_objects e)) (set_visible o))
         <$> (removal_stage e (location_stage (costume_meshes e) objs2)).1 !! k) ∧
    (∀ k, k ∉ costume_meshes e → objs2 !! k = (armature_stage e).1 !! k).
Proof.
  intros Hs Hr. rewrite (run_setup _ _ Hs) in Hr.
  destruct (retarget_Ok _ _ _ Hr) as (objs2 & lg2 & _ & Hm & Hobjs & _).
  exists objs2, lg2. split; [done|]. split.
  - intros k. by rewrite Hobjs, selection_stage_lookup.
  - by apply mesh_stage_Ok in Hm as [Hother _]; [|apply (setup_wf _ _ Hs)].
Qed.



(** At the end of a finished run the avatar armature is the active object;
    every object of the scene was imported and is not the costume armature,
    is visible in the viewport and in renders, and is selected exactly when
    it is the avatar armature or a costume mesh. *)
Theorem final_flags w e r :
  setup w = Ok e → run w = Ok r →
  r_active r = Some (avatar_armature e) ∧
  ∀ k o, r_objects r !! k = Some o →
    is_Some (objects e !! k) ∧ costume_armature e ≠ Some k ∧
    ob_hide_viewport o = false ∧ ob_hide_render o = false ∧
    ob_select o = bool_decide (k ∈ export_objects e).
Proof.
  intros Hs Hr. split.
  { rewrite (run_setup _ _ Hs) in Hr.
    by destruct (retarget_Ok _ _ _ Hr) as (? & ? & _ & _ & _ & ? & _). }
  intros k o Hk. pose proof (setup_wf _ _ Hs) as Hwf.
  destruct (run_scene _ _ _ Hs Hr) as (objs2 & lg2 & _ & Hfin & Hother).
  rewrite Hfin in Hk.
  destruct (_ !! k) as [o0|] eqn:Ho0; [|done]. simpl in Hk.
  injection Hk as <-. simpl. split; [|split; [|done]].
  - destruct (decide (k ∈ costume_meshes e)) as [Hm|Hm].
    + apply (wf_meshes e Hwf), has_type_Some in Hm as (o & Ho & _).
      by eexists.
    + unfold removal_stage in Ho0.
      destruct (costume_armature e) as [ca|] eqn:Hc; simpl in Ho0.
      * apply lookup_delete_Some in Ho0 as [Hne Ho0].
        rewrite location_stage_lookup, (bool_decide_eq_false_2 _ Hm),
          Hother in Ho0 by done.
        rewrite armature_stage_lookup_ne in Ho0 by congruence. by eexists.
      * rewrite location_stage_lookup, (bool_decide_eq_false_2 _ Hm),
          Hother in Ho0 by done.
        rewrite armature_stage_lookup_ne in Ho0 by congruence. by eexists.
  - intros Hc. unfold removal_stage in Ho0. rewrite Hc in Ho0. simpl in Ho0.
    by rewrite lookup_delete_eq in Ho0.
Qed.

Lemma final_flags_sleeve :
  ∃ e r, setup w_sleeve = Ok e ∧ run w_sleeve = Ok r ∧
    r_active r = Some (avatar_armature e) ∧
    ∀ k o, r_objects r !! k = Some o →
      is_Some (objects e !! k) ∧ costume_armature e ≠ Some k ∧
      ob_hide_viewport o = false ∧ ob_hide_render o = false ∧
      ob_select o = bool_decide (k ∈ export_objects e).
Proof.
  eexists _, _. split; [reflexivity|]. split; [reflexivity|].
  apply (final_flags w_sleeve); reflexivity.
Defined.

(** ** The mapping without a costume armature (lines 134 and 160) *)

Lemma retarget_without_rig e e' raises :
  objects e = objects e' → avatar_armature e = avatar_armature e' →
  costume_meshes e = costume_meshes e' → cfg e = cfg e' →
  costume_armature e = None → costume_armature e' = None →
  scene <$> retarget e raises = scene <$> retarget e' raises.
Proof.
  intros Ho Ha Hm Hcfg Hc Hc'.
  assert (Hp : ∀ m o, process_mesh e m o = process_mesh e' m o).
  { intros m o. unfold process_mesh, update_groups, scale_mesh.
    rewrite (retarget_modifiers_env e e' m) by congruence.
    by rewrite Hc, Hc', Ha, Hcfg. }
  assert (Hs : ∀ ms objs, mesh_stage e ms objs = mesh_stage e' ms objs).
  { induction ms as [|m ms IH]; intros objs; simpl; [done|].
    destruct (objs !! m) as [o|]; [|done]. rewrite Hp.
    destruct (process_mesh e' m o) as [[o1 lg1]| |]; simpl; [|done..].
    by rewrite IH. }
  unfold retarget, armature_stage. rewrite Hc, Hc', Ho, Hm, Hs. simpl.
  destruct (mesh_stage e' _ _) as [[objs2 lg2]| |]; simpl; [|done..].
  unfold removal_stage, selection_stage, export_objects.
  rewrite Hc, Hc', Ha, Hm. by destruct raises.
Qed.

(** When the costume file has no armature the bone mapping has no effect:
    two runs that differ in the mapping file only leave the same scene and
    export the same file, or end the same way. *)
Theorem mapping_unused_without_rig w cf md md' :
  costume_file w = Some cf → Forall (λ o, ob_type o ≠ ARMATURE) cf →
  scene <$> run (with_mapping md w) = scene <$> run (with_mapping md' w).
Proof.
  intros Hcf Hna. unfold run, setup. simpl.
  destruct (avatar_file w) as [af|]; [|done]. simpl.
  destruct (bool_decide (selected_objects 0 af = [])); [done|]. simpl.
  destruct (find_avatar_armature _ _) as [aa|]; [|done]. simpl.
  rewrite Hcf. simpl.
  destruct (bool_decide (filter _ _ = [])); [done|]. simpl.
  destruct (foldl _ _ _) as [ca meshes] eqn:Hcl.
  pose proof (f_equal fst Hcl) as H1. simpl in H1.
  rewrite classify_no_armature in H1; last first.
  { intros i Hi%costume_objects_elem. by apply no_type_in_import. }
  simpl in H1. subst ca.
  destruct (bool_decide (None = None) && bool_decide (meshes = []));
    [done|]. simpl.
  destruct (settings_file w) as [sj|]; [|done]. simpl.
  by apply retarget_without_rig.
Qed.

(** The scarf has a vertex group named Chest; mapping Chest to Spine
    changes nothing, because the scarf comes without an armature. *)
Lemma mapping_unused_scarf :
  scene <$> run (with_mapping (MappingData (Some [entry "Chest" "Spine"]))
                   w_no_rig)
  = scene <$> run (with_mapping (MappingData None) w_no_rig) ∧
  (λ r, group_names <$> r_exported r !! 2)
    <$> run (with_mapping (MappingData (Some [entry "Chest" "Spine"]))
               w_no_rig)
  = Ok (Some ["Chest"]).
Proof.
  split; [|by vm_compute].
  apply (mapping_unused_without_rig w_no_rig sample_scarf); [reflexivity|].
  repeat constructor; done.
Defined.

(** ** When the result is skinned against the avatar *)




(** ** Reading the mapping file (lines 108-113) *)

Lemma add_mapping_incomplete bm x : ¬ complete x → add_mapping bm x = bm.
Proof.
  unfold complete, add_mapping. intros H.
  destruct (avatarBoneId x), (costumeBoneId x); try done.
  exfalso. apply H. by split.
Qed.

Lemma foldl_add_mapping_complete es bm :
  foldl add_mapping bm es = foldl add_mapping bm (filter complete es) ∧
  (size (foldl add_mapping bm es) ≤ size bm + length (filter complete es))%nat.
Proof.
  revert bm. induction es as [|x es IH]; intros bm; simpl; [split; [done|lia]|].
  destruct (decide (complete x)) as [Hx|Hx].
  - rewrite filter_cons_True by done. simpl.
    destruct (IH (add_mapping bm x)) as [-> Hsz]. split; [done|].
    etrans; [exact Hsz|].
    assert (size (add_mapping bm x) ≤ S (size bm))%nat; [|lia].
    unfold add_mapping.
    destruct (avatarBoneId x) as [a|], (costumeBoneId x) as [c|]; try lia.
    destruct (bm !! c) eqn:Hb.
    + rewrite map_size_insert_Some by (by eexists). lia.
    + by rewrite map_size_insert_None.
  - rewrite filter_cons_False by done.
    rewrite (add_mapping_incomplete _ _ Hx). apply IH.
Qed.

(** Entries of the mapping file that lack a key are skipped, wherever they
    stand: the mapping is the one built from the entries with both keys.  A
    file without the [boneMapping] key gives the empty mapping, and the
    number of mappings the script reports never exceeds the number of
    entries with both keys. *)
Theorem incomplete_entries_skipped es :
  build_bone_mapping (MappingData (Some es))
    = build_bone_mapping (MappingData (Some (filter complete es))) ∧
  (size (build_bone_mapping (MappingData (Some es)))
     ≤ length (filter complete es))%nat ∧
  build_bone_mapping (MappingData None) = ∅.
Proof.
  unfold build_bone_mapping. simpl.
  destruct (foldl_add_mapping_complete es ∅) as [H1 H2].
  rewrite map_size_empty in H2. by repeat split.
Qed.

(** Two entries for one bone count once, and an entry without a costume
    bone does not count. *)
Example mapping_count :
  size (build_bone_mapping
          (MappingData (Some [entry "Hip" "Hip"; MappingEntry (Some "Leg") None;
                              entry "Hip" "Pelvis"]))) = 1.
Proof. by vm_compute. Qed.
